(** * The chat front-end's request lifecycle (script.js)

    A shallow embedding of [script.js]: the page state the script reads and
    writes, the browser services it calls (DOM, localStorage, timers, fetch,
    console), its three entry points (start-up block, Save click handler,
    [sendMessage]) and the promise chain that [sendMessage] attaches to its
    request.

    Conventions.
    - A JavaScript string is a [string]; each character is one code unit in
      the range U+0000..U+00FF.
    - A JavaScript value that comes out of [JSON.parse] is a [json]; a
      possibly [undefined] value is an [option json].
    - Handlers run in a state-and-exception monad over the page state
      [World]: a thrown exception keeps the effects made before it.
    - Layout (scroll position) is not part of the model. *)

From Stdlib Require Import String Ascii List Bool Arith NArith Lia DecimalString.
From stdpp Require Import base option list strings gmap.

Import ListNotations.
Set Warnings "-register-all".
Local Open Scope string_scope.
Local Open Scope list_scope.
Local Open Scope nat_scope.

(** ** JavaScript strings *)

Module Js.

Definition dquote : ascii := "034"%char.
Definition backslash : ascii := "092"%char.

Definition code (c : ascii) : nat := nat_of_ascii c.

(** WhiteSpace and LineTerminator code units below U+0100, as used by
    [String.prototype.trim]: TAB, LF, VT, FF, CR, SP, NBSP. *)
Definition is_space (c : ascii) : bool :=
  let n := code c in
  ((9 <=? n) && (n <=? 13)) || (n =? 32) || (n =? 160).

Definition is_empty (s : string) : bool :=
  match s with EmptyString => true | String _ _ => false end.

Fixpoint trimStart (s : string) : string :=
  match s with
  | EmptyString => EmptyString
  | String c r => if is_space c then trimStart r else s
  end.

Fixpoint trimEnd (s : string) : string :=
  match s with
  | EmptyString => EmptyString
  | String c r =>
      let r' := trimEnd r in
      if is_space c && is_empty r' then EmptyString else String c r'
  end.

(** [s.trim()] *)
Definition trim (s : string) : string := trimEnd (trimStart s).

(** The string consists of white space only. *)
Fixpoint all_space (s : string) : bool :=
  match s with
  | EmptyString => true
  | String c r => is_space c && all_space r
  end.

(** [`${n}`] for a non-negative integer. *)
Definition of_nat (n : nat) : string := NilEmpty.string_of_uint (Nat.to_uint n).

(** [a.join(sep)] on an array of strings. *)
Fixpoint join (sep : string) (l : list string) : string :=
  match l with
  | [] => EmptyString
  | [x] => x
  | x :: r => x +:+ sep +:+ join sep r
  end.

(** [s.includes(t)] *)
Fixpoint includes (s t : string) : bool :=
  String.prefix t s ||
  match s with
  | EmptyString => false
  | String _ r => includes r t
  end.

Definition hex_digit (n : nat) : ascii :=
  if n <? 10 then ascii_of_nat (48 + n) else ascii_of_nat (55 + n).

Definition hex_digit_lower (n : nat) : ascii :=
  if n <? 10 then ascii_of_nat (48 + n) else ascii_of_nat (87 + n).

(** [%XX] for one octet. *)
Definition percent (b : nat) : string :=
  String "%" (String (hex_digit (b / 16)) (String (hex_digit (b mod 16)) EmptyString)).

(** The characters [encodeURIComponent] leaves alone:
    A-Z a-z 0-9 - _ . ! ~ * ' ( ) *)
Definition uri_unreserved (c : ascii) : bool :=
  let n := code c in
  ((65 <=? n) && (n <=? 90)) || ((97 <=? n) && (n <=? 122)) ||
  ((48 <=? n) && (n <=? 57)) ||
  existsb (Nat.eqb n) [45; 95; 46; 33; 126; 42; 39; 40; 41].

(** [encodeURIComponent(s)]: every other code unit is replaced by the
    percent-escapes of its UTF-8 octets (one octet below U+0080, two from
    U+0080 to U+00FF). *)
Fixpoint encodeURIComponent (s : string) : string :=
  match s with
  | EmptyString => EmptyString
  | String c r =>
      let n := code c in
      (if uri_unreserved c then String c EmptyString
       else if n <? 128 then percent n
       else percent (192 + n / 64) +:+ percent (128 + n mod 64))
      +:+ encodeURIComponent r
  end.

End Js.

(** ** Values produced by [JSON.parse] *)

Module Json.

(** A number is kept as the decimal text [Number.prototype.toString] gives
    it (both zeros print as the one-character text 0); the script only tests
    numbers for truthiness and converts them to text. An object is the list
    of its own properties in enumeration order. *)
Inductive json : Type :=
| JNull
| JBool (b : bool)
| JNum (repr : string)
| JStr (s : string)
| JArr (items : list json)
| JObj (props : list (string * json)).

(** A value that may be [undefined]. *)
Definition jsval : Type := option json.
Definition undefined : jsval := None.

(** ToBoolean *)
Definition truthy (v : json) : bool :=
  match v with
  | JNull => false
  | JBool b => b
  | JNum r => negb (String.eqb r "0")
  | JStr s => negb (Js.is_empty s)
  | JArr _ | JObj _ => true
  end.

Definition truthyV (v : jsval) : bool :=
  match v with Some j => truthy j | None => false end.

Fixpoint assoc (k : string) (props : list (string * json)) : jsval :=
  match props with
  | [] => None
  | (k', v) :: r => if String.eqb k k' then Some v else assoc k r
  end.

(** [v.k] for a value that is neither [null] nor [undefined], and for the
    property names the script reads (candidates, content, parts, text,
    error, message): only an object can own one of them. *)
Definition get (v : json) (k : string) : jsval :=
  match v with
  | JObj props => assoc k props
  | _ => None
  end.

Definition is_null (v : json) : bool :=
  match v with JNull => true | _ => false end.

(** [Array.isArray(v)] *)
Definition isArray (v : jsval) : bool :=
  match v with Some (JArr _) => true | _ => false end.

(** ToString. An array prints as its elements joined by commas, where
    [null] elements print as nothing. An object prints through the
    inherited [toString], unless it has an own property of that name:
    a parsed value is never callable, and the conversion then fails with a
    TypeError ([None]). *)
Fixpoint toString (v : json) : option string :=
  match v with
  | JNull => Some "null"
  | JBool true => Some "true"
  | JBool false => Some "false"
  | JNum r => Some r
  | JStr s => Some s
  | JArr items =>
      option_map (Js.join ",")
        ((fix each (l : list json) : option (list string) :=
            match l with
            | [] => Some []
            | x :: r =>
                match (match x with JNull => Some EmptyString | _ => toString x end),
                      each r with
                | Some s, Some ss => Some (s :: ss)
                | _, _ => None
                end
            end) items)
  | JObj props =>
      match assoc "toString" props with
      | Some _ => None
      | None => Some "[object Object]"
      end
  end.

(** ToString of a value that may be [undefined]. *)
Definition toStringV (v : jsval) : option string :=
  match v with None => Some "undefined" | Some j => toString j end.

(** The element conversion of [Array.prototype.join]. *)
Definition joinItem (v : jsval) : option string :=
  match v with
  | None | Some JNull => Some EmptyString
  | Some j => toString j
  end.

(** [a.join(sep)] on an array of values. *)
Fixpoint joinItems (a : list jsval) : option (list string) :=
  match a with
  | [] => Some []
  | x :: r =>
      match joinItem x, joinItems r with
      | Some s, Some ss => Some (s :: ss)
      | _, _ => None
      end
  end.

Definition join (sep : string) (a : list jsval) : option string :=
  option_map (Js.join sep) (joinItems a).

(** QuoteJSONString *)
Fixpoint quote_body (s : string) : string :=
  match s with
  | EmptyString => EmptyString
  | String c r =>
      let n := Js.code c in
      (if n =? 34 then String Js.backslash (String Js.dquote EmptyString)
       else if n =? 92 then String Js.backslash (String Js.backslash EmptyString)
       else if n =? 8 then String Js.backslash "b"
       else if n =? 9 then String Js.backslash "t"
       else if n =? 10 then String Js.backslash "n"
       else if n =? 12 then String Js.backslash "f"
       else if n =? 13 then String Js.backslash "r"
       else if n <? 32 then
         String Js.backslash
           (String "u" (String "0" (String "0"
              (String (Js.hex_digit_lower (n / 16))
                 (String (Js.hex_digit_lower (n mod 16)) EmptyString)))))
       else String c EmptyString)
      +:+ quote_body r
  end.

Definition quote (s : string) : string :=
  String Js.dquote (quote_body s +:+ String Js.dquote EmptyString).

(** [JSON.stringify(v)] *)
Fixpoint stringify (v : json) : string :=
  match v with
  | JNull => "null"
  | JBool true => "true"
  | JBool false => "false"
  | JNum r => r
  | JStr s => quote s
  | JArr items =>
      "[" +:+ Js.join "," (map stringify items) +:+ "]"
  | JObj props =>
      "{" +:+
      Js.join ","
        ((fix each (l : list (string * json)) : list string :=
            match l with
            | [] => []
            | (k, x) :: r => (quote k +:+ ":" +:+ stringify x) :: each r
            end) props)
      +:+ "}"
  end.

End Json.

(** ** The page: DOM elements, browser services, and what the script did *)

Module Page.

Import Json.

(** A child of [#chat-container]: the outer [div] with its class list and
    the inner content [div] with its class list and text. [node_id] is the
    element's identity. *)
Record Node : Type := MkNode {
  node_id : nat;
  classList : list string;
  content_classList : list string;
  textContent : string
}.

(** Exceptions and rejection reasons. *)
Inductive JsError : Type :=
| NewError (message : string)   (* [new Error(message)] *)
| AbortError                    (* DOMException: the request was aborted *)
| NetworkError                  (* TypeError: fetch could not reach the server *)
| NullAccess                    (* TypeError: property read on null or undefined *)
| NotPrimitive                  (* TypeError: an object has no string form *)
| SecurityError                 (* DOMException: storage access is denied *)
| QuotaExceededError.           (* DOMException: storage is full *)

(** [error.name] *)
Definition name (e : JsError) : string :=
  match e with
  | NewError _ => "Error"
  | AbortError => "AbortError"
  | NetworkError | NullAccess | NotPrimitive => "TypeError"
  | SecurityError => "SecurityError"
  | QuotaExceededError => "QuotaExceededError"
  end.

(** What a timer runs when it fires. *)
Inductive Callback : Type :=
| Abort (controller : nat)          (* [() => controller.abort()] *)
| SetSaveLabel (text : string).     (* [() => (saveTokenBtn.textContent = text)] *)

Record Timer : Type := MkTimer {
  timer_id : nat;
  timer_delay : N;                  (* milliseconds *)
  timer_callback : Callback
}.

(** The arguments of a [fetch] call. *)
Record Request : Type := MkRequest {
  req_url : string;
  req_method : string;
  req_headers : list (string * string);
  req_body : string;
  req_signal : nat                  (* the AbortController whose signal is attached *)
}.

(** A call on the chat container. *)
Inductive Render : Type :=
| Appended (n : Node)
| Removed (id : nat).

Inductive LogLine : Type :=
| ConsoleError (label : string) (e : JsError)
| ConsoleWarn (label : string) (e : JsError).

(** [localStorage]: its entries, and whether the browser refuses access to
    it (every operation throws) or refuses to write (setItem throws). *)
Record Storage : Type := MkStorage {
  items : gmap string string;
  denied : bool;
  full : bool
}.

Record World : Type := MkWorld {
  chatContainer : list Node;          (* children, oldest first *)
  next_node : nat;                    (* identity of the next created element *)
  userInput_value : string;
  userInput_disabled : bool;
  userInput_focused : bool;
  sendButton_disabled : bool;
  tokenInput_value : string;
  tokenInput_masked : option string;  (* the data-masked attribute *)
  tokenInput_title : string;
  saveTokenBtn_textContent : string;
  GEMINI_API_KEY : option string;     (* window.GEMINI_API_KEY; None is undefined *)
  localStorage : Storage;
  timers : list Timer;                (* pending timers *)
  next_timer : nat;
  next_controller : nat;
  aborted : list nat;                 (* controllers whose signal is aborted *)
  rendered : list Render;             (* calls on the chat container, oldest first *)
  requests : list Request;            (* fetch calls, oldest first *)
  console : list LogLine
}.

(** Field updates. *)
Definition with_chatContainer (f : list Node -> list Node) (w : World) : World :=
  let '(MkWorld a b c d e g h i j k l m n o p q r s t) := w in
  MkWorld (f a) b c d e g h i j k l m n o p q r s t.
Definition with_next_node (f : nat -> nat) (w : World) : World :=
  let '(MkWorld a b c d e g h i j k l m n o p q r s t) := w in
  MkWorld a (f b) c d e g h i j k l m n o p q r s t.
Definition with_userInput_value (v : string) (w : World) : World :=
  let '(MkWorld a b c d e g h i j k l m n o p q r s t) := w in
  MkWorld a b v d e g h i j k l m n o p q r s t.
Definition with_userInput_disabled (v : bool) (w : World) : World :=
  let '(MkWorld a b c d e g h i j k l m n o p q r s t) := w in
  MkWorld a b c v e g h i j k l m n o p q r s t.
Definition with_userInput_focused (v : bool) (w : World) : World :=
  let '(MkWorld a b c d e g h i j k l m n o p q r s t) := w in
  MkWorld a b c d v g h i j k l m n o p q r s t.
Definition with_sendButton_disabled (v : bool) (w : World) : World :=
  let '(MkWorld a b c d e g h i j k l m n o p q r s t) := w in
  MkWorld a b c d e v h i j k l m n o p q r s t.
Definition with_tokenInput_value (v : string) (w : World) : World :=
  let '(MkWorld a b c d e g h i j k l m n o p q r s t) := w in
  MkWorld a b c d e g v i j k l m n o p q r s t.
Definition with_tokenInput_masked (v : option string) (w : World) : World :=
  let '(MkWorld a b c d e g h i j k l m n o p q r s t) := w in
  MkWorld a b c d e g h v j k l m n o p q r s t.
Definition with_tokenInput_title (v : string) (w : World) : World :=
  let '(MkWorld a b c d e g h i j k l m n o p q r s t) := w in
  MkWorld a b c d e g h i v k l m n o p q r s t.
Definition with_saveTokenBtn_textContent (v : string) (w : World) : World :=
  let '(MkWorld a b c d e g h i j k l m n o p q r s t) := w in
  MkWorld a b c d e g h i j v l m n o p q r s t.
Definition with_GEMINI_API_KEY (v : option string) (w : World) : World :=
  let '(MkWorld a b c d e g h i j k l m n o p q r s t) := w in
  MkWorld a b c d e g h i j k v m n o p q r s t.
Definition with_items (f : gmap string string -> gmap string string) (w : World) : World :=
  let '(MkWorld a b c d e g h i j k l m n o p q r s t) := w in
  MkWorld a b c d e g h i j k l (MkStorage (f (items m)) (denied m) (full m)) n o p q r s t.
Definition with_timers (f : list Timer -> list Timer) (w : World) : World :=
  let '(MkWorld a b c d e g h i j k l m n o p q r s t) := w in
  MkWorld a b c d e g h i j k l m (f n) o p q r s t.
Definition with_next_timer (f : nat -> nat) (w : World) : World :=
  let '(MkWorld a b c d e g h i j k l m n o p q r s t) := w in
  MkWorld a b c d e g h i j k l m n (f o) p q r s t.
Definition with_next_controller (f : nat -> nat) (w : World) : World :=
  let '(MkWorld a b c d e g h i j k l m n o p q r s t) := w in
  MkWorld a b c d e g h i j k l m n o (f p) q r s t.
Definition with_aborted (f : list nat -> list nat) (w : World) : World :=
  let '(MkWorld a b c d e g h i j k l m n o p q r s t) := w in
  MkWorld a b c d e g h i j k l m n o p (f q) r s t.
Definition with_rendered (f : list Render -> list Render) (w : World) : World :=
  let '(MkWorld a b c d e g h i j k l m n o p q r s t) := w in
  MkWorld a b c d e g h i j k l m n o p q (f r) s t.
Definition with_requests (f : list Request -> list Request) (w : World) : World :=
  let '(MkWorld a b c d e g h i j k l m n o p q r s t) := w in
  MkWorld a b c d e g h i j k l m n o p q r (f s) t.
Definition with_console (f : list LogLine -> list LogLine) (w : World) : World :=
  let '(MkWorld a b c d e g h i j k l m n o p q r s t) := w in
  MkWorld a b c d e g h i j k l m n o p q r s (f t).

(** *** The handler monad: page state and exceptions *)

Inductive Result (A : Type) : Type :=
| Ok (a : A) (w : World)
| Thrown (e : JsError) (w : World).
Arguments Ok {A} a w.
Arguments Thrown {A} e w.

Definition world_of {A} (r : Result A) : World :=
  match r with Ok _ w | Thrown _ w => w end.

Definition M (A : Type) : Type := World -> Result A.

Definition ret {A} (a : A) : M A := fun w => Ok a w.
Definition bind {A B} (m : M A) (k : A -> M B) : M B :=
  fun w => match m w with Ok a w' => k a w' | Thrown e w' => Thrown e w' end.
Definition throw {A} (e : JsError) : M A := fun w => Thrown e w.
(** [try { m } catch (e) { h e }] *)
Definition try_catch {A} (m : M A) (h : JsError -> M A) : M A :=
  fun w => match m w with Ok a w' => Ok a w' | Thrown e w' => h e w' end.
Definition gets {A} (f : World -> A) : M A := fun w => Ok (f w) w.
Definition modify (f : World -> World) : M unit := fun w => Ok tt (f w).
(** A computation that can throw but does not touch the page. *)
Definition lift {A} (r : JsError + A) : M A :=
  fun w => match r with inl e => Thrown e w | inr a => Ok a w end.

Declare Scope js_scope.
Delimit Scope js_scope with js.
Notation "x <- m ;; k" := (bind m (fun x => k))
  (at level 100, m at level 99, right associativity) : js_scope.
Notation "m ;; k" := (bind m (fun _ => k))
  (at level 100, right associativity) : js_scope.
Local Open Scope js_scope.

(** *** Browser services *)

(** [chatContainer.appendChild(n)] *)
Definition appendChild (n : Node) : M unit :=
  modify (fun w => with_rendered (fun l => l ++ [Appended n])
                     (with_chatContainer (fun c => c ++ [n]) w)).

(** [document.createElement('div')]: a fresh identity. *)
Definition createElement : M nat :=
  id <- gets next_node ;;
  modify (with_next_node S) ;;
  ret id.

(** [n.parentNode] is non-null: [n] is a child of the chat container, the
    only parent the script ever gives a node. *)
Definition parentNode (n : Node) : M bool :=
  gets (fun w => existsb (fun c => node_id c =? node_id n) (chatContainer w)).

(** [n.parentNode.removeChild(n)] *)
Definition removeChild (n : Node) : M unit :=
  modify (fun w => with_rendered (fun l => l ++ [Removed (node_id n)])
                     (with_chatContainer
                        (List.filter (fun c => negb (node_id c =? node_id n))) w)).

(** [userInput.focus()]: a disabled control cannot take focus. *)
Definition focus : M unit :=
  modify (fun w => if userInput_disabled w then w else with_userInput_focused true w).

(** [localStorage.getItem(k)]; [None] is null. *)
Definition getItem (k : string) : M (option string) :=
  st <- gets localStorage ;;
  if denied st then throw SecurityError else ret (items st !! k).

(** [localStorage.setItem(k, v)] *)
Definition setItem (k v : string) : M unit :=
  st <- gets localStorage ;;
  if denied st then throw SecurityError
  else if full st then throw QuotaExceededError
  else modify (with_items (insert k v)).

(** [localStorage.removeItem(k)] *)
Definition removeItem (k : string) : M unit :=
  st <- gets localStorage ;;
  if denied st then throw SecurityError else modify (with_items (delete k)).

(** [setTimeout(cb, delay)] *)
Definition setTimeout (cb : Callback) (delay : N) : M nat :=
  id <- gets next_timer ;;
  modify (with_next_timer S) ;;
  modify (with_timers (fun l => l ++ [MkTimer id delay cb])) ;;
  ret id.

(** [clearTimeout(id)] *)
Definition clearTimeout (id : nat) : M unit :=
  modify (with_timers (List.filter (fun t => negb (timer_id t =? id)))).

(** [new AbortController()] *)
Definition newAbortController : M nat :=
  id <- gets next_controller ;;
  modify (with_next_controller S) ;;
  ret id.

(** [fetch(url, init)]: the call is issued; its promise is settled later by
    the network (see [await_response]). *)
Definition fetch (r : Request) : M unit :=
  modify (with_requests (fun l => l ++ [r])).

Definition console_error (label : string) (e : JsError) : M unit :=
  modify (with_console (fun l => l ++ [ConsoleError label e])).

Definition console_warn (label : string) (e : JsError) : M unit :=
  modify (with_console (fun l => l ++ [ConsoleWarn label e])).

(** Truthiness of a string-or-null-or-undefined value. *)
Definition nonempty (v : option string) : bool :=
  match v with Some s => negb (Js.is_empty s) | None => false end.

End Page.

(** ** The script *)

Module Script.

Import Json Page.
Local Open Scope js_scope.

(** *** Texts and constants of the source *)

Definition storage_key : string := "gemini_api_key".
Definition mask : string := "********".
Definition model : string := "gemini-1.5-flash".
Definition timeout_ms : N := 15000%N.

Definition key_required_message : string :=
  "Gemini API key is required. Please enter it and click " +:+
  String Js.dquote ("Save Key" +:+ String Js.dquote ".").
Definition no_reply_message : string :=
  "Sorry, I couldn't generate a response. Please try again.".
Definition timed_out_message : string := "The request timed out. Please try again.".
Definition failure_message : string :=
  "An error occurred while contacting the Gemini service.".
Definition tip : string := " Tip: Save your Gemini API key to proceed.".

Definition endpoint (apiKey : string) : string :=
  "https://generativelanguage.googleapis.com/v1beta/models/" +:+ model +:+
  ":generateContent?key=" +:+ Js.encodeURIComponent apiKey.

(** [{ contents: [ { role: 'user', parts: [{ text: message }] } ] }] *)
Definition payload (message : string) : json :=
  JObj [("contents",
         JArr [JObj [("role", JStr "user");
                     ("parts", JArr [JObj [("text", JStr message)]])]])].

(** *** addMessage, addTypingIndicator *)

Definition addMessage (text sender : string) : M unit :=
  messageDiv <- createElement ;;
  appendChild
    (MkNode messageDiv
       ["message"; if String.eqb sender "user" then "user-message" else "ai-message"]
       ["message-content"] text).

Definition addTypingIndicator : M Node :=
  typingDiv <- createElement ;;
  let n := MkNode typingDiv ["message"; "ai-message"]
             ["message-content"; "typing"] "Typing..." in
  appendChild n ;;
  ret n.

(** [if (typingIndicator && typingIndicator.parentNode)
       typingIndicator.parentNode.removeChild(typingIndicator)] *)
Definition removeTypingIndicator (typingIndicator : Node) : M unit :=
  attached <- parentNode typingIndicator ;;
  if attached then removeChild typingIndicator else ret tt.

(** [window.GEMINI_API_KEY || localStorage.getItem('gemini_api_key')] *)
Definition readApiKey : M (option string) :=
  cached <- gets GEMINI_API_KEY ;;
  if nonempty cached then ret cached else getItem storage_key.

(** *** Start-up block (lines 10-24) *)

Definition init : M unit :=
  try_catch
    (saved <- getItem storage_key ;;
     if nonempty saved then
       modify (with_GEMINI_API_KEY saved) ;;
       modify (with_tokenInput_value mask) ;;
       modify (with_tokenInput_masked (Some "true")) ;;
       modify (with_tokenInput_title
                 "A Gemini API key is saved. Overwrite to change or clear.") ;;
       modify (with_saveTokenBtn_textContent "Key Saved")
     else ret tt)
    (fun e => console_warn "Token storage unavailable:" e).

(** *** Save click handler (lines 28-58) *)

Definition is_masked (attr : option string) : bool :=
  match attr with Some v => String.eqb v "true" | None => false end.

Definition onSaveClick : M unit :=
  try_catch
    (value <- gets tokenInput_value ;;
     let raw := Js.trim value in
     if Js.is_empty raw then
       removeItem storage_key ;;
       modify (with_GEMINI_API_KEY None) ;;
       modify (with_saveTokenBtn_textContent "Key Cleared") ;;
       modify (with_tokenInput_value EmptyString) ;;
       modify (with_tokenInput_masked None) ;;
       _ <- setTimeout (SetSaveLabel "Save Key") 1200%N ;;
       ret tt
     else
       attr <- gets tokenInput_masked ;;
       if is_masked attr && String.eqb raw mask then
         modify (with_saveTokenBtn_textContent "Key Saved") ;;
         _ <- setTimeout (SetSaveLabel "Save Key") 1200%N ;;
         ret tt
       else
         setItem storage_key raw ;;
         modify (with_GEMINI_API_KEY (Some raw)) ;;
         modify (with_tokenInput_value mask) ;;
         modify (with_tokenInput_masked (Some "true")) ;;
         modify (with_saveTokenBtn_textContent "Saved") ;;
         _ <- setTimeout (SetSaveLabel "Save Key") 1200%N ;;
         ret tt)
    (fun e =>
       console_error "Failed to save key:" e ;;
       modify (with_saveTokenBtn_textContent "Save Failed") ;;
       _ <- setTimeout (SetSaveLabel "Save Key") 1500%N ;;
       ret tt).

(** *** sendMessage, up to the fetch call (lines 69-119) *)

(** What the promise chain closes over. *)
Record Pending : Type := MkPending {
  typingIndicator : Node;
  controller : nat;
  timeoutId : nat
}.

(** The synchronous part of [sendMessage]. It returns the closure of the
    promise chain when a request was issued, and nothing otherwise. *)
Definition sendMessage : M (option Pending) :=
  locked <- gets sendButton_disabled ;;
  if locked then ret None else
  value <- gets userInput_value ;;
  let message := Js.trim value in
  if Js.is_empty message then ret None else
  addMessage message "user" ;;
  modify (with_userInput_value EmptyString) ;;
  modify (with_userInput_disabled true) ;;
  modify (with_sendButton_disabled true) ;;
  typingIndicator <- addTypingIndicator ;;
  controller <- newAbortController ;;
  timeoutId <- setTimeout (Abort controller) timeout_ms ;;
  apiKey <- readApiKey ;;
  if negb (nonempty apiKey) then
    removeTypingIndicator typingIndicator ;;
    addMessage key_required_message "ai" ;;
    modify (with_userInput_disabled false) ;;
    modify (with_sendButton_disabled false) ;;
    focus ;;
    ret None
  else
    fetch (MkRequest (endpoint (default EmptyString apiKey)) "POST"
             [("Content-Type", "application/json")]
             (stringify (payload message)) controller) ;;
    ret (Some (MkPending typingIndicator controller timeoutId)).

(** *** The promise chain (lines 120-175) *)

(** A response as the first handler sees it: its status and what
    [response.json()] does, resolve with the parsed body or reject. *)
Record Response : Type := MkResponse {
  status : nat;
  body : option json
}.

(** [response.ok] *)
Definition ok (r : Response) : bool := (200 <=? status r) && (status r <=? 299).

(** [v.k] where [v] may be null or undefined. *)
Definition member (v : jsval) (k : string) : JsError + jsval :=
  match v with
  | None | Some JNull => inl NullAccess
  | Some j => inr (get j k)
  end.

Notation "x <~ e ;; k" := (match e with inl err => inl err | inr x => k end)
  (at level 100, e at level 99, right associativity) : js_scope.

(** [data && data.error ? (data.error.message || JSON.stringify(data.error)) : null] *)
Definition apiErr_of (data : json) : JsError + jsval :=
  if truthy data then
    error <~ member (Some data) "error" ;;
    match error with
    | Some e =>
        if truthy e then
          message <~ member error "message" ;;
          if truthyV message then inr message
          else inr (Some (JStr (stringify e)))
        else inr (Some JNull)
    | None => inr (Some JNull)
    end
  else inr (Some JNull).

(** A string conversion that may throw. *)
Definition str (o : option string) : JsError + string :=
  match o with Some s => inr s | None => inl NotPrimitive end.

(** First [.then]: the body of the async handler. It has no effect on the
    page; it returns [data] or throws. *)
Definition onResponse (response : Response) : JsError + json :=
  match body response with
  | None =>
      inl (NewError ("Invalid JSON from API (" +:+ Js.of_nat (status response) +:+ ")"))
  | Some data =>
      if negb (ok response) then
        apiErr <~ apiErr_of data ;;
        msg <~ (if truthyV apiErr
                then text <~ str (toStringV apiErr) ;; inr ("API error: " +:+ text)
                else inr ("HTTP " +:+ Js.of_nat (status response))) ;;
        inl (NewError msg)
      else inr data
  end.

(** [p => p.text || ''] *)
Definition part_text (p : json) : JsError + jsval :=
  text <~ member (Some p) "text" ;;
  inr (if truthyV text then text else Some (JStr EmptyString)).

(** [a.map(f)] for a callback that may throw. *)
Fixpoint array_map (f : json -> JsError + jsval) (a : list json) : JsError + list jsval :=
  match a with
  | [] => inr []
  | x :: r => y <~ f x ;; ys <~ array_map f r ;; inr (y :: ys)
  end.

(** The [let reply = ''; if (...) { ... }] block of the second handler. *)
Definition reply_of (data : json) : JsError + string :=
  if truthy data then
    candidates <~ member (Some data) "candidates" ;;
    match candidates with
    | Some (JArr (cand :: _)) =>
        if truthy cand then
          content <~ member (Some cand) "content" ;;
          if truthyV content then
            parts <~ member content "parts" ;;
            match parts with
            | Some (JArr ps) =>
                texts <~ array_map part_text ps ;;
                joined <~ str (join EmptyString texts) ;;
                inr (Js.trim joined)
            | _ => inr EmptyString
            end
          else inr EmptyString
        else inr EmptyString
    | _ => inr EmptyString
    end
  else inr EmptyString.

(** Second [.then] *)
Definition onData (p : Pending) (data : json) : M unit :=
  removeTypingIndicator (typingIndicator p) ;;
  reply <- lift (reply_of data) ;;
  if Js.is_empty reply then addMessage no_reply_message "ai"
  else addMessage reply "ai".

(** [.catch] *)
Definition onError (p : Pending) (error : JsError) : M unit :=
  removeTypingIndicator (typingIndicator p) ;;
  console_error "Error:" error ;;
  let timedOut := String.eqb (name error) "AbortError" in
  apiKey <- readApiKey ;;
  let hint := if nonempty apiKey then EmptyString else tip in
  let msg := if timedOut then timed_out_message +:+ hint
             else failure_message +:+ hint in
  addMessage msg "ai".

(** [.finally] *)
Definition onFinally (p : Pending) : M unit :=
  try_catch (clearTimeout (timeoutId p)) (fun _ => ret tt) ;;
  modify (with_userInput_disabled false) ;;
  modify (with_sendButton_disabled false) ;;
  focus.

(** [promise.finally(f)]: [f] runs either way and the outcome is kept,
    unless [f] itself throws. *)
Definition finally {A} (m : M A) (f : M unit) : M A :=
  fun w => match m w with
           | Ok a w' => (f ;; ret a) w'
           | Thrown e w' => (f ;; throw e) w'
           end.

(** How the promise returned by [fetch] settles. *)
Inductive Settlement : Type :=
| Fulfilled (response : Response)
| Rejected (reason : JsError).

Definition settle (s : Settlement) : M Response :=
  match s with
  | Fulfilled r => ret r
  | Rejected e => throw e
  end.

(** [fetch(...).then(...).then(...).catch(...).finally(...)], run when the
    request settles. A [Thrown] result is an unhandled rejection. *)
Definition chain (p : Pending) (s : Settlement) : M unit :=
  finally
    (try_catch
       (response <- settle s ;;
        data <- lift (onResponse response) ;;
        onData p data)
       (onError p))
    (onFinally p).

(** *** The listeners (lines 61-67) *)

(** The click listener of the Send button is [sendMessage] itself. The
    keypress listener of the entry field submits on Enter, after preventing
    the key's default action; the first component of the result says
    whether it did. *)
Definition onKeypress (key : string) : M (bool * option Pending) :=
  if String.eqb key "Enter" then
    p <- sendMessage ;;
    ret (true, p)
  else ret (false, None).

End Script.

(** ** One Turn on the event loop *)

Module Timeline.

Import Json Page Script.
Local Open Scope js_scope.

(** [controller.abort()] or the label reset of the Save button. *)
Definition run_callback (cb : Callback) : M unit :=
  match cb with
  | Abort c => modify (with_aborted (fun l => c :: l))
  | SetSaveLabel text => modify (with_saveTokenBtn_textContent text)
  end.

(** The timer [id] comes due: it leaves the pending list and its callback
    runs. Nothing happens when it is no longer pending. *)
Definition fire (id : nat) : M unit :=
  pending <- gets timers ;;
  match find (fun t => timer_id t =? id) pending with
  | None => ret tt
  | Some t => clearTimeout id ;; run_callback (timer_callback t)
  end.

(** What the remote server does with the request, in milliseconds after the
    [fetch] call (which is also when [sendMessage] set its timer). *)
Inductive Server : Type :=
| Silent                      (* the request never settles by itself *)
| Unreachable (after : N)     (* network failure *)
| Answers (after : N) (status : nat) (body_after : N) (body : option json).
    (* headers arrive after [after] ms with [status]; the body is read
       [body_after] ms later and parses to [body], or is not JSON *)

(** The delay of the pending timer that aborts this request's controller. *)
Definition deadline (p : Pending) (w : World) : option N :=
  match find (fun t => timer_id t =? timeoutId p) (timers w) with
  | Some (MkTimer _ d (Abort c)) => if c =? controller p then Some d else None
  | _ => None
  end.

(** Who settles the request: the server, or the abort timer. *)
Inductive Race : Type :=
| NeverSettles
| ServerFirst (s : Settlement)
| TimerFirst (s : Settlement).

(** The abort timer, when there is one with delay [d], fires first when it
    is due no later than the server's answer (a tie goes to the timer). An
    aborted request rejects with an AbortError; an abort while the body is
    being read makes [response.json()] reject. *)
Definition race (d : option N) (srv : Server) : Race :=
  let due (t : N) := match d with Some d => (d <=? t)%N | None => false end in
  match srv with
  | Silent =>
      match d with
      | Some _ => TimerFirst (Rejected AbortError)
      | None => NeverSettles
      end
  | Unreachable t =>
      if due t then TimerFirst (Rejected AbortError)
      else ServerFirst (Rejected NetworkError)
  | Answers t st bt b =>
      if due t then TimerFirst (Rejected AbortError)
      else if due (t + bt)%N then TimerFirst (Fulfilled (MkResponse st None))
      else ServerFirst (Fulfilled (MkResponse st b))
  end.

Definition winner (r : Race) : option Settlement :=
  match r with
  | NeverSettles => None
  | ServerFirst s | TimerFirst s => Some s
  end.

(** How the request of [p] settles, and the page at that moment. [None]:
    the request never settles. *)
Definition await_response (p : Pending) (srv : Server) (w : World)
  : option (Settlement * World) :=
  match race (deadline p w) srv with
  | NeverSettles => None
  | ServerFirst s => Some (s, w)
  | TimerFirst s => Some (s, world_of (fire (timeoutId p) w))
  end.

(** What the user may do to the key widget while a request is in flight. *)
Inductive KeyEvent : Type :=
| TypeKey (text : string)     (* edits the key field *)
| ClickSave.

Definition key_event (ev : KeyEvent) : M unit :=
  match ev with
  | TypeKey text => modify (with_tokenInput_value text)
  | ClickSave => onSaveClick
  end.

Definition key_events (evs : list KeyEvent) (w : World) : World :=
  fold_left (fun w ev => world_of (key_event ev w)) evs w.

(** A whole Turn: the user activates Send; if a request goes out, the key
    widget events [between] happen while it is in flight, then the request
    settles and the promise chain runs. The result is [None] when the chain
    never runs, [Thrown] when an exception escapes the click handler or the
    chain. *)
Definition turn (srv : Server) (between : list KeyEvent) (w : World)
  : option (Result unit) :=
  match sendMessage w with
  | Thrown e w1 => Some (Thrown e w1)
  | Ok None w1 => Some (Ok tt w1)
  | Ok (Some p) w1 =>
      match await_response p srv (key_events between w1) with
      | None => None
      | Some (s, w2) => Some (chain p s w2)
      end
  end.

(** A freshly loaded page, before the start-up block ran: an empty chat,
    empty fields, the Save button with the label the markup gives it. *)
Definition blank (label : string) (store : Storage) : World :=
  MkWorld [] 0 EmptyString false false false EmptyString None EmptyString
          label None store [] 0 0 [] [] [] [].

End Timeline.

(** ** Vocabulary of the properties *)

Module Lifecycle.

Import Json Page Script Timeline.
Local Open Scope js_scope.

(** Element and timer identities already in use are below the counters
    that hand out new ones. *)
Definition well_formed (w : World) : bool :=
  forallb (fun n => node_id n <? next_node w) (chatContainer w) &&
  forallb (fun t => timer_id t <? next_timer w) (timers w).

(** A credential is configured: cached in the page or present in the store. *)
Definition configured (w : World) : bool :=
  nonempty (GEMINI_API_KEY w) || nonempty (items (localStorage w) !! storage_key).

(** The credential can be read without touching a store that denies access. *)
Definition readable (w : World) : bool :=
  nonempty (GEMINI_API_KEY w) || negb (denied (localStorage w)).

(** The Input Gate is open: the entry field and the Send button are
    enabled. [sendMessage] itself looks at the button only. *)
Definition unlocked (w : World) : bool :=
  negb (userInput_disabled w) && negb (sendButton_disabled w).

(** The trimmed text of the entry field. *)
Definition message_of (w : World) : string := Js.trim (userInput_value w).

(** A Turn can start: the Send button is enabled and the entry field holds
    more than white space. *)
Definition ready (w : World) : bool :=
  negb (sendButton_disabled w) && negb (Js.is_empty (message_of w)).

(** The elements a Turn started on page [w] creates, in order. *)
Definition user_node (w : World) : Node :=
  MkNode (next_node w) ["message"; "user-message"] ["message-content"] (message_of w).
Definition typing_node (w : World) : Node :=
  MkNode (S (next_node w)) ["message"; "ai-message"]
    ["message-content"; "typing"] "Typing...".
Definition assistant_node (w : World) (text : string) : Node :=
  MkNode (S (S (next_node w))) ["message"; "ai-message"] ["message-content"] text.

(** The request a Turn started on page [w] issues with credential [k]. *)
Definition request_of (w : World) (k : string) : Request :=
  MkRequest (endpoint k) "POST" [("Content-Type", "application/json")]
    (stringify (payload (message_of w))) (next_controller w).

(** The closure of the promise chain of a Turn started on page [w]. *)
Definition pending_of (w : World) : Pending :=
  MkPending (typing_node w) (next_controller w) (next_timer w).

(** The credential [sendMessage] reads on page [w]. *)
Definition apiKey_of (w : World) : option string :=
  if nonempty (GEMINI_API_KEY w) then GEMINI_API_KEY w
  else items (localStorage w) !! storage_key.

(** The page right after a Turn started on page [w] issued its request. *)
Definition in_flight (w : World) : World :=
  {| chatContainer := chatContainer w ++ [user_node w; typing_node w];
     next_node := S (S (next_node w));
     userInput_value := EmptyString;
     userInput_disabled := true;
     userInput_focused := userInput_focused w;
     sendButton_disabled := true;
     tokenInput_value := tokenInput_value w;
     tokenInput_masked := tokenInput_masked w;
     tokenInput_title := tokenInput_title w;
     saveTokenBtn_textContent := saveTokenBtn_textContent w;
     GEMINI_API_KEY := GEMINI_API_KEY w;
     localStorage := localStorage w;
     timers := timers w ++ [MkTimer (next_timer w) timeout_ms (Abort (next_controller w))];
     next_timer := S (next_timer w);
     next_controller := S (next_controller w);
     aborted := aborted w;
     rendered := rendered w ++ [Appended (user_node w); Appended (typing_node w)];
     requests := requests w ++ [request_of w (default EmptyString (apiKey_of w))];
     console := console w |}.

(** The page left behind when the credential read throws. *)
Definition stuck (w : World) : World :=
  {| chatContainer := chatContainer w ++ [user_node w; typing_node w];
     next_node := S (S (next_node w));
     userInput_value := EmptyString;
     userInput_disabled := true;
     userInput_focused := userInput_focused w;
     sendButton_disabled := true;
     tokenInput_value := tokenInput_value w;
     tokenInput_masked := tokenInput_masked w;
     tokenInput_title := tokenInput_title w;
     saveTokenBtn_textContent := saveTokenBtn_textContent w;
     GEMINI_API_KEY := GEMINI_API_KEY w;
     localStorage := localStorage w;
     timers := timers w ++ [MkTimer (next_timer w) timeout_ms (Abort (next_controller w))];
     next_timer := S (next_timer w);
     next_controller := S (next_controller w);
     aborted := aborted w;
     rendered := rendered w ++ [Appended (user_node w); Appended (typing_node w)];
     requests := requests w;
     console := console w |}.

(** The page after a Turn started on page [w] found no credential. *)
Definition asked (w : World) : World :=
  {| chatContainer :=
       chatContainer w ++ [user_node w; assistant_node w key_required_message];
     next_node := S (S (S (next_node w)));
     userInput_value := EmptyString;
     userInput_disabled := false;
     userInput_focused := true;
     sendButton_disabled := false;
     tokenInput_value := tokenInput_value w;
     tokenInput_masked := tokenInput_masked w;
     tokenInput_title := tokenInput_title w;
     saveTokenBtn_textContent := saveTokenBtn_textContent w;
     GEMINI_API_KEY := GEMINI_API_KEY w;
     localStorage := localStorage w;
     timers := timers w ++ [MkTimer (next_timer w) timeout_ms (Abort (next_controller w))];
     next_timer := S (next_timer w);
     next_controller := S (next_controller w);
     aborted := aborted w;
     rendered :=
       rendered w ++
       [Appended (user_node w); Appended (typing_node w);
        Removed (node_id (typing_node w));
        Appended (assistant_node w key_required_message)];
     requests := requests w;
     console := console w |}.

(** The page at the moment the request of a Turn started on page [w]
    settles, after the key widget events [between] (and before the abort
    timer fires, if it does). *)
Definition at_settlement (w : World) (between : list KeyEvent) : World :=
  key_events between (in_flight w).

(** The timer [id] is pending. *)
Definition timer_pending (id : nat) (w : World) : bool :=
  existsb (fun t => timer_id t =? id) (timers w).

(** The element [id] is a child of the chat container. *)
Definition visible (id : nat) (w : World) : bool :=
  existsb (fun n => node_id n =? id) (chatContainer w).

(** What reaches the end of the two [.then] handlers: the extracted reply,
    or the error handed to [.catch]. *)
Definition outcome_of (s : Settlement) : JsError + string :=
  match s with
  | Rejected e => inl e
  | Fulfilled r => data <~ onResponse r ;; reply_of data
  end.

(** The two wordings of the failure notice. *)
Definition failure_text (e : JsError) : string :=
  if String.eqb (name e) "AbortError" then timed_out_message else failure_message.

Definition hint_of (w : World) : string :=
  if configured w then EmptyString else tip.

(** The text of the assistant message that ends the Turn. *)
Definition final_text (s : Settlement) (w : World) : string :=
  match outcome_of s with
  | inl e => failure_text e +:+ hint_of w
  | inr reply => if Js.is_empty reply then no_reply_message else reply
  end.

(** What the chain writes to the console. *)
Definition logged (s : Settlement) : list LogLine :=
  match outcome_of s with
  | inl e => [ConsoleError "Error:" e]
  | inr _ => []
  end.

(** The fetch promise settles by itself within [t] milliseconds. *)
Definition settles_within (srv : Server) (t : N) : bool :=
  match srv with
  | Silent => false
  | Unreachable after => (after <=? t)%N
  | Answers after _ _ _ => (after <=? t)%N
  end.

(** The abort timer fired before the request settled by itself. *)
Definition timer_fired (r : Race) : bool :=
  match r with TimerFirst _ => true | _ => false end.

(** The page after the chain of [p] ran on page [w] for settlement [s]. *)
Definition settled (p : Pending) (s : Settlement) (w : World) : World :=
  let n := MkNode (next_node w) ["message"; "ai-message"] ["message-content"]
             (final_text s w) in
  {| chatContainer :=
       List.filter (fun c => negb (node_id c =? node_id (typingIndicator p)))
         (chatContainer w) ++ [n];
     next_node := S (next_node w);
     userInput_value := userInput_value w;
     userInput_disabled := false;
     userInput_focused := true;
     sendButton_disabled := false;
     tokenInput_value := tokenInput_value w;
     tokenInput_masked := tokenInput_masked w;
     tokenInput_title := tokenInput_title w;
     saveTokenBtn_textContent := saveTokenBtn_textContent w;
     GEMINI_API_KEY := GEMINI_API_KEY w;
     localStorage := localStorage w;
     timers := List.filter (fun t => negb (timer_id t =? timeoutId p)) (timers w);
     next_timer := next_timer w;
     next_controller := next_controller w;
     aborted := aborted w;
     rendered :=
       rendered w ++ [Removed (node_id (typingIndicator p)); Appended n];
     requests := requests w;
     console := console w ++ logged s |}.

(** A Turn started on page [w] has ended on page [w'] with the assistant
    message [text]: the chat gained the user's message and that one
    message, the placeholder was appended and then removed once, before
    the message was appended, and the Input Gate is open again. *)
Definition completed (w : World) (text : string) (w' : World) : Prop :=
  chatContainer w' = chatContainer w ++ [user_node w; assistant_node w text] /\
  rendered w' =
    rendered w ++
    [Appended (user_node w); Appended (typing_node w);
     Removed (node_id (typing_node w)); Appended (assistant_node w text)] /\
  userInput_disabled w' = false /\
  sendButton_disabled w' = false /\
  userInput_focused w' = true.

(** What key widget events leave alone, and what they may extend. *)
Definition key_frame (w w' : World) : Prop :=
  chatContainer w' = chatContainer w /\
  next_node w' = next_node w /\
  userInput_value w' = userInput_value w /\
  userInput_disabled w' = userInput_disabled w /\
  userInput_focused w' = userInput_focused w /\
  sendButton_disabled w' = sendButton_disabled w /\
  next_controller w' = next_controller w /\
  aborted w' = aborted w /\
  rendered w' = rendered w /\
  requests w' = requests w /\
  (exists later, timers w' = timers w ++ later) /\
  (readable w = true -> readable w' = true).

(** The entry field and the Send button are enabled or disabled together. *)
Definition gate_coherent (w : World) : bool :=
  Bool.eqb (userInput_disabled w) (sendButton_disabled w).

(** The cached credential and the stored one agree as soon as one of them
    is set. *)
Definition in_sync (w : World) : Prop :=
  configured w = true ->
  GEMINI_API_KEY w = items (localStorage w) !! storage_key.

(** The key the Save handler would store: the trimmed content of the key
    field. *)
Definition typed_key (w : World) : string := Js.trim (tokenInput_value w).

(** The key field holds a new key: its content is not empty and it is not
    the untouched mask of a saved key. *)
Definition new_key_typed (w : World) : bool :=
  negb (Js.is_empty (typed_key w)) &&
  negb (is_masked (tokenInput_masked w) && String.eqb (typed_key w) mask).

(** The store accepts writes. *)
Definition writable (st : Storage) : bool := negb (denied st) && negb (full st).

(** How the request of a Turn settles under the 15000 ms timer. *)
Definition settlement_of (srv : Server) : Settlement :=
  default (Rejected AbortError) (winner (race (Some timeout_ms) srv)).

(** The page on which the chain of a Turn started on page [w] runs: the
    page at settlement, with the timer gone and the controller aborted when
    the timer fired first. *)
Definition settlement_page (w : World) (srv : Server) (between : list KeyEvent) : World :=
  if timer_fired (race (Some timeout_ms) srv) then
    with_aborted (fun l => next_controller w :: l)
      (with_timers (List.filter (fun t => negb (timer_id t =? next_timer w)))
         (at_settlement w between))
  else at_settlement w between.

(** The page after a Turn started on page [w] whose request went out. *)
Definition ended (w : World) (srv : Server) (between : list KeyEvent) : World :=
  settled (pending_of w) (settlement_of srv) (settlement_page w srv between).

(** The result of a Turn started on page [w], path by path. *)
Definition after_turn (w : World) (srv : Server) (between : list KeyEvent) : Result unit :=
  if negb (ready w) then Ok tt w
  else if negb (readable w) then Thrown SecurityError (stuck w)
  else if configured w then Ok tt (ended w srv between)
  else Ok tt (asked w).

End Lifecycle.

(** ** The Reply, as the specification words it *)

Module Reply.

Import Json.

(** The content parts of the first candidate; none when the body has no
    candidate, or the candidate no content, or the content no parts. *)
Definition first_candidate_parts (data : json) : list json :=
  match get data "candidates" with
  | Some (JArr (cand :: _)) =>
      match get cand "content" with
      | Some content =>
          match get content "parts" with
          | Some (JArr parts) => parts
          | _ => []
          end
      | None => []
      end
  | _ => []
  end.

(** The text fragment of a part: its text as a string, nothing when the
    part has no text or an empty (falsy) one. *)
Definition fragment (part : json) : string :=
  match get part "text" with
  | Some t => if truthy t then default EmptyString (toString t) else EmptyString
  | None => EmptyString
  end.

(** A part a fragment can be read from: it is not null, and its text, if
    it has one, has a string form (every string has). *)
Definition readable_part (part : json) : bool :=
  negb (is_null part) &&
  match get part "text" with
  | Some t => match toString t with Some _ => true | None => false end
  | None => true
  end.

(** Every part of the first candidate is such a part. *)
Definition extractable (data : json) : bool :=
  forallb readable_part (first_candidate_parts data).

(** Concatenate the fragments and trim. *)
Definition text (data : json) : string :=
  Js.trim (fold_right String.append EmptyString (map fragment (first_candidate_parts data))).

End Reply.

(** ** Concrete pages used in the examples *)

Module Example.

Import Json Page Script Timeline Lifecycle.

Definition empty_store : Storage := MkStorage ∅ false false.
Definition denied_store : Storage := MkStorage ∅ true false.
Definition store_with (k : string) : Storage :=
  MkStorage (<[storage_key := k]> ∅) false false.

(** A fresh page where the user typed Hello. *)
Definition hello (store : Storage) : World :=
  with_userInput_value "Hello" (blank "Save Key" store).

(** The same page with a credential cached in the page. *)
Definition hello_with (k : string) (store : Storage) : World :=
  with_GEMINI_API_KEY (Some k) (hello store).

(** A page whose cached credential and stored credential disagree. *)
Definition disagreeing : World := hello_with "cached" (store_with "stored").

(** A page that already has a saved credential, after the start-up block. *)
Definition revisited : World := world_of (init (blank "Save Key" (store_with "secret"))).

(** A page whose Send button is disabled. *)
Definition busy : World := with_sendButton_disabled true (hello empty_store).

(** HTTP 429 with body [{error:{message: quota exceeded}}], after 100 ms. *)
Definition quota_body : json :=
  JObj [("error", JObj [("message", JStr "quota exceeded")])].
Definition quota_exceeded : Server := Answers 100 429 5 (Some quota_body).

(** HTTP 200 with body [{candidates:[]}]. *)
Definition no_candidates_body : json := JObj [("candidates", JArr [])].
Definition no_candidates : Server := Answers 100 200 5 (Some no_candidates_body).

(** HTTP 200 with body [{candidates:[{content:{parts:[null]}}]}]. *)
Definition null_part_body : json :=
  JObj [("candidates",
         JArr [JObj [("content", JObj [("parts", JArr [JNull])])]])].
Definition null_part : Server := Answers 100 200 5 (Some null_part_body).

(** HTTP 200 with body [{candidates:[{content:{parts:[{text: Hi there}]}}]}]. *)
Definition hi_there_body : json :=
  JObj [("candidates",
         JArr [JObj [("content",
                      JObj [("parts", JArr [JObj [("text", JStr "Hi there")]])])]])].
Definition hi_there : Server := Answers 100 200 5 (Some hi_there_body).

(** A fresh page where the user typed a key into the key field. *)
Definition typing_key (k : string) (store : Storage) : World :=
  with_tokenInput_value k (blank "Save Key" store).

(** A store that is full: reads work, writes throw. *)
Definition full_store : Storage := MkStorage ∅ false true.

(** The texts of the messages in the chat, oldest first. *)
Definition transcript (w : World) : list string := map textContent (chatContainer w).

End Example.

(** ** Evaluation of the handlers *)

Module Facts.

Import Json Page Script Timeline Lifecycle.
Local Open Scope js_scope.

(** Unfold the monad, the browser services and the field accessors. *)
Ltac run :=
  cbv beta iota zeta delta
    [bind ret throw try_catch gets modify lift finally world_of
     appendChild createElement parentNode removeChild focus getItem setItem
     removeItem setTimeout clearTimeout newAbortController fetch console_error
     console_warn settle
     addMessage addTypingIndicator removeTypingIndicator
     chatContainer next_node userInput_value userInput_disabled userInput_focused
     sendButton_disabled tokenInput_value tokenInput_masked tokenInput_title
     saveTokenBtn_textContent GEMINI_API_KEY localStorage timers next_timer
     next_controller aborted rendered requests console
     items denied full
     typingIndicator controller timeoutId
     with_chatContainer with_next_node with_userInput_value with_userInput_disabled
     with_userInput_focused with_sendButton_disabled with_tokenInput_value
     with_tokenInput_masked with_tokenInput_title with_saveTokenBtn_textContent
     with_GEMINI_API_KEY with_items with_timers with_next_timer
     with_next_controller with_aborted with_rendered with_requests with_console
     message_of user_node typing_node assistant_node request_of pending_of
     in_flight stuck asked settled apiKey_of configured readable visible
     timer_pending] in *;
  cbn [negb andb orb] in *.

(** *** Strings and lists *)

Lemma is_empty_true s : Js.is_empty s = true <-> s = EmptyString.
Proof. destruct s; simpl; split; congruence. Qed.

Lemma is_empty_false s : Js.is_empty s = false <-> s <> EmptyString.
Proof. destruct s; simpl; split; congruence. Qed.

Lemma trimStart_all_space s : Js.all_space s = true -> Js.trimStart s = EmptyString.
Proof.
  induction s as [|c r IH]; simpl; [reflexivity|].
  intros H. apply andb_true_iff in H as [Hc Hr]. rewrite Hc. auto.
Qed.

(** A text of white space only trims to the empty text. *)
Lemma trim_all_space s : Js.all_space s = true -> Js.trim s = EmptyString.
Proof. intros H. unfold Js.trim. rewrite trimStart_all_space by assumption. reflexivity. Qed.

Lemma filter_fresh_node i (c : list Node) :
  forallb (fun n => node_id n <? i) c = true ->
  List.filter (fun n => negb (node_id n =? i)) c = c.
Proof.
  induction c as [|n c IH]; simpl; [reflexivity|].
  intros H. apply andb_true_iff in H as [Hn Hc].
  apply Nat.ltb_lt in Hn.
  destruct (Nat.eqb_spec (node_id n) i); [lia|]. simpl. f_equal. auto.
Qed.

Lemma existsb_fresh_node i (c : list Node) :
  forallb (fun n => node_id n <? i) c = true ->
  existsb (fun n => node_id n =? i) c = false.
Proof.
  induction c as [|n c IH]; simpl; [reflexivity|].
  intros H. apply andb_true_iff in H as [Hn Hc].
  apply Nat.ltb_lt in Hn.
  destruct (Nat.eqb_spec (node_id n) i); [lia|]. simpl. auto.
Qed.

Lemma forallb_lt_weaken {A} (f : A -> nat) i j (l : list A) :
  i <= j ->
  forallb (fun x => f x <? i) l = true -> forallb (fun x => f x <? j) l = true.
Proof.
  intros Hij. induction l as [|x l IH]; simpl; [reflexivity|].
  intros H. apply andb_true_iff in H as [Hx Hl].
  apply Nat.ltb_lt in Hx. apply andb_true_iff. split; [apply Nat.ltb_lt; lia|auto].
Qed.

(** Removing an element leaves no element with its identity. *)
Lemma existsb_filter_out i (c : list Node) :
  existsb (fun n => node_id n =? i)
    (List.filter (fun n => negb (node_id n =? i)) c) = false.
Proof.
  induction c as [|n c IH]; simpl; [reflexivity|].
  destruct (node_id n =? i) eqn:E; simpl; [assumption|]. rewrite E. assumption.
Qed.

Lemma timer_filter_out i (l : list Timer) :
  existsb (fun t => timer_id t =? i)
    (List.filter (fun t => negb (timer_id t =? i)) l) = false.
Proof.
  induction l as [|t l IH]; simpl; [reflexivity|].
  destruct (timer_id t =? i) eqn:E; simpl; [assumption|]. rewrite E. assumption.
Qed.

Lemma existsb_snoc_self (c : list Node) (n : Node) :
  existsb (fun x => node_id x =? node_id n) (c ++ [n]) = true.
Proof.
  rewrite existsb_app. simpl. rewrite Nat.eqb_refl. apply orb_true_iff. right. reflexivity.
Qed.

Lemma filter_snoc_fresh (c : list Node) (n : Node) :
  forallb (fun x => node_id x <? node_id n) c = true ->
  List.filter (fun x => negb (node_id x =? node_id n)) (c ++ [n]) = c.
Proof.
  intros H. rewrite List.filter_app, (filter_fresh_node _ _ H). simpl.
  rewrite Nat.eqb_refl. simpl. apply app_nil_r.
Qed.

Lemma find_fresh_timer i (l later : list Timer) (t : Timer) :
  forallb (fun x => timer_id x <? i) l = true ->
  timer_id t = i ->
  find (fun x => timer_id x =? i) (l ++ t :: later) = Some t.
Proof.
  intros Hl Ht. induction l as [|x l IH]; simpl.
  - rewrite Ht, Nat.eqb_refl. reflexivity.
  - simpl in Hl. apply andb_true_iff in Hl as [Hx Hl]. apply Nat.ltb_lt in Hx.
    destruct (Nat.eqb_spec (timer_id x) i); [lia|]. auto.
Qed.

(** *** Reading the credential *)

Lemma readApiKey_readable w :
  readable w = true -> readApiKey w = Ok (apiKey_of w) w.
Proof.
  destruct w as [? ? ? ? ? ? ? ? ? ? key [it dn fl] ? ? ? ? ? ? ?].
  unfold readApiKey. run.
  destruct (nonempty key); simpl; [reflexivity|].
  intros H. apply negb_true_iff in H. subst dn. reflexivity.
Qed.

Lemma readApiKey_denied w :
  readable w = false -> readApiKey w = Thrown SecurityError w.
Proof.
  destruct w as [? ? ? ? ? ? ? ? ? ? key [it dn fl] ? ? ? ? ? ? ?].
  unfold readApiKey. run.
  destruct (nonempty key); simpl; [discriminate|].
  intros H. apply negb_false_iff in H. subst dn. reflexivity.
Qed.

Lemma nonempty_apiKey_of w : nonempty (apiKey_of w) = configured w.
Proof.
  unfold apiKey_of, configured.
  destruct (nonempty (GEMINI_API_KEY w)) eqn:E; simpl; [assumption|reflexivity].
Qed.

(** *** The synchronous part of sendMessage *)

Lemma sendMessage_locked w :
  sendButton_disabled w = true -> sendMessage w = Ok None w.
Proof. intros H. destruct w. unfold sendMessage. run. subst. reflexivity. Qed.

Lemma sendMessage_blank w :
  Js.is_empty (message_of w) = true -> sendMessage w = Ok None w.
Proof.
  intros H. destruct w. unfold sendMessage. run.
  destruct sendButton_disabled0; [reflexivity|]. rewrite H. reflexivity.
Qed.

Lemma ready_true w :
  ready w = true <->
  sendButton_disabled w = false /\ Js.is_empty (message_of w) = false.
Proof.
  unfold ready. rewrite andb_true_iff, !negb_true_iff. reflexivity.
Qed.

Lemma sendMessage_ignored w : ready w = false -> sendMessage w = Ok None w.
Proof.
  unfold ready. intros H. apply andb_false_iff in H as [H|H].
  - apply sendMessage_locked. apply negb_false_iff. exact H.
  - apply sendMessage_blank. apply negb_false_iff. exact H.
Qed.

Lemma sendMessage_sent w :
  ready w = true ->
  readable w = true ->
  configured w = true ->
  sendMessage w = Ok (Some (pending_of w)) (in_flight w).
Proof.
  intros Hrd Hr Hc. apply ready_true in Hrd as [Hl Hm].
  pose proof (nonempty_apiKey_of w) as Hk. rewrite Hc in Hk.
  destruct w as [? ? ? ? ? ? ? ? ? ? key [it dn fl] ? ? ? ? ? ? ?].
  unfold sendMessage. run. subst. rewrite Hm.
  rewrite readApiKey_readable by exact Hr. run. rewrite Hk. run.
  rewrite <- ?app_assoc. reflexivity.
Qed.

Lemma sendMessage_stuck w :
  ready w = true ->
  readable w = false ->
  sendMessage w = Thrown SecurityError (stuck w).
Proof.
  intros Hrd Hr. apply ready_true in Hrd as [Hl Hm].
  destruct w as [? ? ? ? ? ? ? ? ? ? key [it dn fl] ? ? ? ? ? ? ?].
  unfold sendMessage. run. subst. rewrite Hm.
  rewrite readApiKey_denied by exact Hr. rewrite <- ?app_assoc. reflexivity.
Qed.

Lemma sendMessage_asked w :
  well_formed w = true ->
  ready w = true ->
  readable w = true ->
  configured w = false ->
  sendMessage w = Ok None (asked w).
Proof.
  intros Hwf Hrd Hr Hc. apply ready_true in Hrd as [Hl Hm].
  pose proof (nonempty_apiKey_of w) as Hk. rewrite Hc in Hk.
  unfold well_formed in Hwf. apply andb_true_iff in Hwf as [Hn _].
  destruct w as [chat nn ? ? ? ? ? ? ? ? key [it dn fl] ? ? ? ? ? ? ?].
  unfold sendMessage. run. subst. rewrite Hm.
  set (typing := MkNode (S nn) _ _ _).
  set (user := MkNode nn _ _ _).
  assert (Hchat : forallb (fun n => node_id n <? node_id typing) (chat ++ [user]) = true).
  { rewrite forallb_app. apply andb_true_iff. split.
    - eapply forallb_lt_weaken; [|exact Hn]. simpl. lia.
    - simpl. rewrite andb_true_r. apply Nat.ltb_lt. lia. }
  rewrite readApiKey_readable by exact Hr. run. rewrite Hk. run.
  rewrite existsb_snoc_self. run. rewrite (filter_snoc_fresh _ _ Hchat).
  subst user typing. rewrite <- ?app_assoc. reflexivity.
Qed.

(** *** The key widget while a request is in flight *)

Lemma key_frame_refl w : key_frame w w.
Proof.
  unfold key_frame. repeat split; try reflexivity; try tauto.
  exists []. symmetry. apply app_nil_r.
Qed.

Lemma key_frame_trans w1 w2 w3 :
  key_frame w1 w2 -> key_frame w2 w3 -> key_frame w1 w3.
Proof.
  unfold key_frame.
  intros (A1 & A2 & A3 & A4 & A5 & A6 & A7 & A8 & A9 & A10 & [l1 A11] & A12)
         (B1 & B2 & B3 & B4 & B5 & B6 & B7 & B8 & B9 & B10 & [l2 B11] & B12).
  repeat split; try congruence; try tauto.
  exists (l1 ++ l2). rewrite B11, A11. symmetry. apply app_assoc.
Qed.

(** The Save handler never throws, and leaves the chat, the Input Gate and
    the request log alone. *)
Lemma onSaveClick_frame w :
  exists w', onSaveClick w = Ok tt w' /\ key_frame w w'.
Proof.
  destruct w as [? ? ? ? ? ? value attr ? ? key [it dn fl] ? ? ? ? ? ? ?].
  unfold onSaveClick, key_frame. run.
  destruct (Js.is_empty (Js.trim value)) eqn:Eraw; run.
  - destruct dn; run; (eexists; split; [reflexivity|]); run;
      repeat split; try reflexivity; try tauto; eexists; reflexivity.
  - destruct (is_masked attr && String.eqb (Js.trim value) mask); run.
    + eexists; split; [reflexivity|]. run.
      repeat split; try reflexivity; try tauto; eexists; reflexivity.
    + destruct dn; run; [|destruct fl; run];
        (eexists; split; [reflexivity|]); run;
        repeat split; try reflexivity; try tauto; try (eexists; reflexivity).
      intros _. unfold nonempty. rewrite Eraw. reflexivity.
Qed.

Lemma key_event_frame ev w :
  exists w', key_event ev w = Ok tt w' /\ key_frame w w'.
Proof.
  destruct ev as [text|]; simpl.
  - destruct w. run. eexists; split; [reflexivity|].
    unfold key_frame. run. repeat split; try reflexivity; try tauto.
    exists []. symmetry. apply app_nil_r.
  - apply onSaveClick_frame.
Qed.

Lemma key_events_frame evs w : key_frame w (key_events evs w).
Proof.
  unfold key_events. revert w. induction evs as [|ev evs IH]; intros w; simpl.
  - apply key_frame_refl.
  - destruct (key_event_frame ev w) as (w' & E & F). rewrite E. simpl.
    eapply key_frame_trans; [exact F|apply IH].
Qed.

(** *** The promise chain *)

(** The chain always runs to its end: whatever the settlement, it removes
    the placeholder, appends one assistant message, logs the error if there
    was one, clears the timer and opens the Input Gate. *)
Lemma chain_settled p s w :
  visible (node_id (typingIndicator p)) w = true ->
  readable w = true ->
  chain p s w = Ok tt (settled p s w).
Proof.
  intros Hv Hr. pose proof (nonempty_apiKey_of w) as Hk.
  destruct w as [chat nn ? ? ? ? ? ? ? ? key [it dn fl] ? ? ? ? ? ? ?].
  destruct p as [typing ctl tid].
  unfold chain, onData, onError, onFinally. run.
  unfold final_text, logged, hint_of, failure_text, outcome_of. run.
  assert (Hread : forall w', readable w' = readable
            (MkWorld chat nn userInput_value0 userInput_disabled0 userInput_focused0
               sendButton_disabled0 tokenInput_value0 tokenInput_masked0
               tokenInput_title0 saveTokenBtn_textContent0 key
               (MkStorage it dn fl) timers0 next_timer0 next_controller0 aborted0
               rendered0 requests0 console0) ->
            readApiKey w' = Ok (apiKey_of w') w').
  { intros w' E. apply readApiKey_readable. rewrite E. exact Hr. }
  clear Hr.
  set (cfg := nonempty key || nonempty (it !! storage_key)) in *.
  destruct s as [r|e].
  - destruct (onResponse r) as [e|data]; run.
    + rewrite Hv. run. rewrite Hread by reflexivity. run. rewrite Hk.
      destruct (String.eqb (name e) "AbortError"), cfg;
        run; rewrite <- ?app_assoc; reflexivity.
    + rewrite Hv. run. destruct (reply_of data) as [e|reply]; run.
      * rewrite existsb_filter_out. run.
        rewrite Hread by reflexivity. run. rewrite Hk.
        destruct (String.eqb (name e) "AbortError"), cfg;
          run; rewrite <- ?app_assoc; reflexivity.
      * destruct (Js.is_empty reply); run; rewrite <- ?app_assoc, ?app_nil_r;
          reflexivity.
  - run. rewrite Hv. run. rewrite Hread by reflexivity. run. rewrite Hk.
    destruct (String.eqb (name e) "AbortError"), cfg;
      run; rewrite <- ?app_assoc; reflexivity.
Qed.

(** *** The abort timer *)

Lemma fire_abort id d c w :
  find (fun t => timer_id t =? id) (timers w) = Some (MkTimer id d (Abort c)) ->
  world_of (fire id w) =
  with_aborted (fun l => c :: l)
    (with_timers (List.filter (fun t => negb (timer_id t =? id))) w).
Proof.
  intros H. destruct w. unfold fire. run. rewrite H. reflexivity.
Qed.

(** *** The identities stay fresh *)

Lemma forallb_filter {A} (f g : A -> bool) (l : list A) :
  forallb f l = true -> forallb f (List.filter g l) = true.
Proof.
  induction l as [|x l IH]; simpl; [reflexivity|].
  intros H. apply andb_true_iff in H as [Hx Hl].
  destruct (g x); simpl; [rewrite Hx|]; auto.
Qed.

Lemma fresh_snoc {A} (f : A -> nat) n (l : list A) (x : A) :
  f x = n ->
  forallb (fun y => f y <? n) l = true ->
  forallb (fun y => f y <? S n) (l ++ [x]) = true.
Proof.
  intros Hx Hl. rewrite forallb_app. apply andb_true_iff. split.
  - eapply forallb_lt_weaken; [|exact Hl]. lia.
  - simpl. rewrite andb_true_r. apply Nat.ltb_lt. lia.
Qed.

Lemma well_formed_blank label store : well_formed (blank label store) = true.
Proof. reflexivity. Qed.

Lemma well_formed_init w : well_formed w = true -> well_formed (world_of (init w)) = true.
Proof.
  destruct w as [? ? ? ? ? ? ? ? ? ? ? [it dn fl] ? ? ? ? ? ? ?].
  unfold init, well_formed. run. intros H.
  destruct dn; run; [exact H|].
  destruct (nonempty (it !! storage_key)); run; exact H.
Qed.

Lemma well_formed_key_event ev w :
  well_formed w = true -> well_formed (world_of (key_event ev w)) = true.
Proof.
  destruct w as [? ? ? ? ? ? value attr ? ? key [it dn fl] tm nt ? ? ? ? ?].
  unfold well_formed. intros H. apply andb_true_iff in H as [Hn Ht].
  assert (Hs : forall d cb,
             forallb (fun t => timer_id t <? S nt) (tm ++ [MkTimer nt d cb]) = true)
    by (intros; apply fresh_snoc; [reflexivity|exact Ht]).
  destruct ev as [text|]; simpl; unfold onSaveClick; run.
  - rewrite Hn, Ht. reflexivity.
  - destruct (Js.is_empty (Js.trim value)); run.
    + destruct dn; run; rewrite Hn, Hs; reflexivity.
    + destruct (is_masked attr && String.eqb (Js.trim value) mask); run.
      * rewrite Hn, Hs. reflexivity.
      * destruct dn; run; [|destruct fl; run]; rewrite Hn, Hs; reflexivity.
Qed.

Lemma well_formed_key_events evs w :
  well_formed w = true -> well_formed (key_events evs w) = true.
Proof.
  unfold key_events. revert w. induction evs as [|ev evs IH]; intros w H; simpl;
    [exact H|]. apply IH. apply well_formed_key_event. exact H.
Qed.

Lemma well_formed_in_flight w : well_formed w = true -> well_formed (in_flight w) = true.
Proof.
  destruct w as [chat nn ? ? ? ? ? ? ? ? ? ? tm nt ? ? ? ? ?].
  unfold well_formed. run. intros H. apply andb_true_iff in H as [Hn Ht].
  apply andb_true_iff. split; [|apply fresh_snoc; [reflexivity|exact Ht]].
  change (chat ++ [?u; ?t]) with (chat ++ [u] ++ [t]). rewrite app_assoc.
  apply fresh_snoc; [reflexivity|]. apply fresh_snoc; [reflexivity|exact Hn].
Qed.

Lemma well_formed_stuck w : well_formed w = true -> well_formed (stuck w) = true.
Proof. intros H. apply well_formed_in_flight in H. destruct w. exact H. Qed.

Lemma well_formed_asked w : well_formed w = true -> well_formed (asked w) = true.
Proof.
  destruct w as [chat nn ? ? ? ? ? ? ? ? ? ? tm nt ? ? ? ? ?].
  unfold well_formed. run. intros H. apply andb_true_iff in H as [Hn Ht].
  apply andb_true_iff. split; [|apply fresh_snoc; [reflexivity|exact Ht]].
  change (chat ++ [?u; ?t]) with (chat ++ [u] ++ [t]). rewrite app_assoc.
  apply fresh_snoc; [reflexivity|].
  apply (forallb_lt_weaken node_id (S nn)); [lia|].
  apply fresh_snoc; [reflexivity|exact Hn].
Qed.

Lemma well_formed_settled p s w :
  well_formed w = true -> well_formed (settled p s w) = true.
Proof.
  destruct w as [chat nn ? ? ? ? ? ? ? ? ? ? tm nt ? ? ? ? ?].
  unfold well_formed, settled. run. intros H. apply andb_true_iff in H as [Hn Ht].
  apply andb_true_iff. split; [|apply forallb_filter; exact Ht].
  apply fresh_snoc; [reflexivity|]. apply forallb_filter. exact Hn.
Qed.

Lemma well_formed_fired id c w :
  well_formed w = true ->
  well_formed (with_aborted (fun l => c :: l)
                 (with_timers (List.filter (fun t => negb (timer_id t =? id))) w)) = true.
Proof.
  destruct w. unfold well_formed. run. intros H. apply andb_true_iff in H as [Hn Ht].
  rewrite Hn. apply forallb_filter. exact Ht.
Qed.

(** *** A whole Turn *)

Lemma final_text_configured s w w' :
  configured w = configured w' -> final_text s w = final_text s w'.
Proof. intros H. unfold final_text, hint_of. rewrite H. reflexivity. Qed.

(** While the request is in flight its abort timer stays pending, whatever
    happens to the key widget. *)
Lemma in_flight_timer w between :
  well_formed w = true ->
  find (fun t => timer_id t =? next_timer w)
    (timers (key_events between (in_flight w))) =
  Some (MkTimer (next_timer w) timeout_ms (Abort (next_controller w))).
Proof.
  intros Hwf. apply andb_true_iff in Hwf as [_ Ht].
  destruct (key_events_frame between (in_flight w))
    as (_ & _ & _ & _ & _ & _ & _ & _ & _ & _ & [later E] & _).
  rewrite E. destruct w. run. rewrite <- app_assoc. simpl.
  apply find_fresh_timer; [exact Ht|reflexivity].
Qed.

Lemma in_flight_deadline w between :
  well_formed w = true ->
  deadline (pending_of w) (key_events between (in_flight w)) = Some timeout_ms.
Proof.
  intros Hwf. unfold deadline.
  replace (timeoutId (pending_of w)) with (next_timer w) by (destruct w; reflexivity).
  rewrite in_flight_timer by assumption.
  replace (controller (pending_of w)) with (next_controller w) by (destruct w; reflexivity).
  rewrite Nat.eqb_refl. reflexivity.
Qed.

Lemma in_flight_fresh w :
  well_formed w = true ->
  forallb (fun n => node_id n <? node_id (typing_node w))
    (chatContainer w ++ [user_node w]) = true.
Proof.
  intros Hwf. apply andb_true_iff in Hwf as [Hn _].
  rewrite forallb_app. apply andb_true_iff. split.
  - eapply forallb_lt_weaken; [|exact Hn]. simpl. lia.
  - simpl. rewrite andb_true_r. apply Nat.ltb_lt. lia.
Qed.

(** The page a chain leaves behind, for a chain that starts on a page whose
    chat is still the one of the Turn in flight. *)
Lemma settled_completed w s w3 :
  well_formed w = true ->
  chatContainer w3 = chatContainer (in_flight w) ->
  next_node w3 = next_node (in_flight w) ->
  rendered w3 = rendered (in_flight w) ->
  completed w (final_text s w3) (settled (pending_of w) s w3).
Proof.
  intros Hwf Hc Hn Hrn. pose proof (in_flight_fresh w Hwf) as Hf.
  unfold completed, settled. cbv zeta.
  set (text := final_text s w3). clearbody text.
  destruct w3. destruct w as [chat nn ? ? ? ? ? ? ? ? ? ? ? ? ? ? ? ? ?].
  run. subst. repeat split.
  - change (chat ++ [?u; ?t]) with (chat ++ [u] ++ [t]). rewrite app_assoc.
    rewrite (filter_snoc_fresh _ _ Hf). rewrite <- app_assoc. reflexivity.
  - rewrite <- app_assoc. reflexivity.
Qed.

Lemma in_flight_visible w w3 :
  chatContainer w3 = chatContainer (in_flight w) ->
  visible (node_id (typingIndicator (pending_of w))) w3 = true.
Proof.
  intros Hc. unfold visible. rewrite Hc. destruct w as [chat nn ? ? ? ? ? ? ? ? ? ? ? ? ? ? ? ? ?].
  run. change (chat ++ [?u; ?t]) with (chat ++ [u] ++ [t]). rewrite app_assoc.
  apply existsb_snoc_self.
Qed.

(** A Turn that issues its request always ends: the request settles, by
    the server or by the abort timer, the chain runs without an unhandled
    rejection, and the Turn is completed with the text that the settlement
    and the credential state at that moment determine. *)
Lemma turn_with_credential w srv between :
  well_formed w = true ->
  ready w = true ->
  readable w = true ->
  configured w = true ->
  exists s w',
    winner (race (Some timeout_ms) srv) = Some s /\
    turn srv between w = Some (Ok tt w') /\
    completed w (final_text s (key_events between (in_flight w))) w' /\
    requests w' = requests w ++ [request_of w (default EmptyString (apiKey_of w))] /\
    timer_pending (next_timer w) w' = false /\
    console w' = console (key_events between (in_flight w)) ++ logged s /\
    aborted w' = (if timer_fired (race (Some timeout_ms) srv)
                  then next_controller w :: aborted w else aborted w) /\
    well_formed w' = true.
Proof.
  intros Hwf Hrd Hr Hc. unfold turn.
  rewrite sendMessage_sent by assumption.
  set (w2 := key_events between (in_flight w)).
  pose proof (key_events_frame between (in_flight w)) as F. fold w2 in F.
  destruct F as (Fc & Fn & _ & _ & _ & _ & _ & Fa & Frn & Frq & _ & Fr).
  assert (Hr2 : readable w2 = true).
  { apply Fr. destruct w. exact Hr. }
  assert (Hwf2 : well_formed w2 = true).
  { apply well_formed_key_events, well_formed_in_flight. exact Hwf. }
  unfold await_response. fold w2. unfold w2 at 1.
  rewrite in_flight_deadline by assumption.
  pose proof (in_flight_timer w between Hwf) as Ht. fold w2 in Ht.
  assert (Hfire : world_of (fire (timeoutId (pending_of w)) w2) =
                  with_aborted (fun l => next_controller w :: l)
                    (with_timers
                       (List.filter (fun t => negb (timer_id t =? next_timer w))) w2)).
  { replace (timeoutId (pending_of w)) with (next_timer w) by (destruct w; reflexivity).
    eapply fire_abort. exact Ht. }
  assert (Hserver : forall s,
    exists w', Some (chain (pending_of w) s w2) = Some (Ok tt w') /\
      completed w (final_text s w2) w' /\
      requests w' = requests w ++ [request_of w (default EmptyString (apiKey_of w))] /\
      timer_pending (next_timer w) w' = false /\
      console w' = console w2 ++ logged s /\
      aborted w' = aborted w /\
      well_formed w' = true).
  { intros s. exists (settled (pending_of w) s w2).
    rewrite chain_settled by (try apply in_flight_visible; assumption).
    split; [reflexivity|]. split; [apply settled_completed; assumption|].
    assert (Hrest :
      requests (settled (pending_of w) s w2) =
        requests w ++ [request_of w (default EmptyString (apiKey_of w))] /\
      timer_pending (next_timer w) (settled (pending_of w) s w2) = false /\
      console (settled (pending_of w) s w2) = console w2 ++ logged s /\
      aborted (settled (pending_of w) s w2) = aborted w).
    { clear Ht Hfire Hwf2. destruct w2. destruct w. run. subst. repeat split.
      apply timer_filter_out. }
    destruct Hrest as (R1 & R2 & R3 & R4). repeat split; try assumption.
    apply well_formed_settled. exact Hwf2. }
  assert (Htimer : forall s,
    exists w', Some (chain (pending_of w) s
                       (world_of (fire (timeoutId (pending_of w)) w2))) = Some (Ok tt w') /\
      completed w (final_text s w2) w' /\
      requests w' = requests w ++ [request_of w (default EmptyString (apiKey_of w))] /\
      timer_pending (next_timer w) w' = false /\
      console w' = console w2 ++ logged s /\
      aborted w' = next_controller w :: aborted w /\
      well_formed w' = true).
  { intros s. rewrite Hfire. clear Ht Hfire.
    pose proof (well_formed_fired (next_timer w) (next_controller w) w2 Hwf2) as Hwf3.
    set (w3 := with_aborted _ _) in *.
    assert (E3 : chatContainer w3 = chatContainer w2 /\ next_node w3 = next_node w2 /\
                 rendered w3 = rendered w2 /\ readable w3 = readable w2 /\
                 configured w3 = configured w2 /\ requests w3 = requests w2 /\
                 console w3 = console w2 /\
                 aborted w3 = next_controller w :: aborted w2).
    { subst w3. destruct w2. run. repeat split. }
    destruct E3 as (E3c & E3n & E3r & E3rd & E3cf & E3q & E3k & E3a).
    exists (settled (pending_of w) s w3).
    rewrite chain_settled
      by (try apply in_flight_visible; congruence).
    split; [reflexivity|].
    split; [rewrite <- (final_text_configured s w3 w2 E3cf);
            apply settled_completed; congruence|].
    assert (Hrest :
      requests (settled (pending_of w) s w3) =
        requests w ++ [request_of w (default EmptyString (apiKey_of w))] /\
      timer_pending (next_timer w) (settled (pending_of w) s w3) = false /\
      console (settled (pending_of w) s w3) = console w2 ++ logged s /\
      aborted (settled (pending_of w) s w3) = next_controller w :: aborted w).
    { clearbody w3. clear Hserver Hwf2 Hwf3. destruct w3. destruct w2. destruct w.
      run. subst. repeat split. apply timer_filter_out. }
    destruct Hrest as (R1 & R2 & R3 & R4). repeat split; try assumption.
    apply well_formed_settled. exact Hwf3. }
  unfold race. destruct srv as [|t|t st bt b].
  - destruct (Htimer (Rejected AbortError)) as (w' & E & Rest).
    exists (Rejected AbortError), w'. split; [reflexivity|]. exact (conj E Rest).
  - destruct (timeout_ms <=? t)%N.
    + destruct (Htimer (Rejected AbortError)) as (w' & E & Rest).
      exists (Rejected AbortError), w'. split; [reflexivity|]. exact (conj E Rest).
    + destruct (Hserver (Rejected NetworkError)) as (w' & E & Rest).
      exists (Rejected NetworkError), w'. split; [reflexivity|]. exact (conj E Rest).
  - destruct (timeout_ms <=? t)%N; [|destruct (timeout_ms <=? t + bt)%N].
    + destruct (Htimer (Rejected AbortError)) as (w' & E & Rest).
      exists (Rejected AbortError), w'. split; [reflexivity|]. exact (conj E Rest).
    + destruct (Htimer (Fulfilled (MkResponse st None))) as (w' & E & Rest).
      exists (Fulfilled (MkResponse st None)), w'. split; [reflexivity|]. exact (conj E Rest).
    + destruct (Hserver (Fulfilled (MkResponse st b))) as (w' & E & Rest).
      exists (Fulfilled (MkResponse st b)), w'. split; [reflexivity|]. exact (conj E Rest).
Qed.

Lemma turn_without_credential w srv between :
  well_formed w = true ->
  ready w = true ->
  readable w = true ->
  configured w = false ->
  turn srv between w = Some (Ok tt (asked w)).
Proof.
  intros Hwf Hrd Hr Hc. unfold turn. rewrite sendMessage_asked by assumption.
  reflexivity.
Qed.

Lemma turn_ignored w srv between :
  ready w = false -> turn srv between w = Some (Ok tt w).
Proof. intros H. unfold turn. rewrite sendMessage_ignored by assumption. reflexivity. Qed.

Lemma turn_stuck w srv between :
  ready w = true ->
  readable w = false ->
  turn srv between w = Some (Thrown SecurityError (stuck w)).
Proof.
  intros Hrd Hr. unfold turn. rewrite sendMessage_stuck by assumption. reflexivity.
Qed.

Lemma asked_completed w :
  completed w key_required_message (asked w).
Proof. destruct w. unfold completed. run. repeat split. Qed.

(** After a completed Turn the placeholder is no longer in the chat. *)
Lemma completed_not_visible w text w' :
  well_formed w = true ->
  completed w text w' ->
  visible (node_id (typing_node w)) w' = false.
Proof.
  intros Hwf (Hc & _). unfold visible. rewrite Hc.
  apply andb_true_iff in Hwf as [Hn _].
  rewrite existsb_app. apply orb_false_iff. split.
  - apply existsb_fresh_node. eapply forallb_lt_weaken; [|exact Hn]. simpl. lia.
  - unfold existsb, user_node, assistant_node, typing_node, node_id.
    rewrite orb_false_r. apply orb_false_iff.
    split; apply Nat.eqb_neq; lia.
Qed.

End Facts.

(** ** Reply extraction against the specification's wording *)

Module ReplyFacts.

Import Json Page Script Timeline Lifecycle.
Local Open Scope js_scope.

Lemma append_empty_r s : s +:+ EmptyString = s.
Proof.
  induction s as [|c s IH]; [reflexivity|].
  change (String c (s +:+ EmptyString) = String c s). f_equal. exact IH.
Qed.

Lemma join_empty l : Js.join EmptyString l = fold_right String.append EmptyString l.
Proof.
  induction l as [|x l IH]; [reflexivity|].
  destruct l as [|y l]; [simpl; symmetry; apply append_empty_r|].
  change (Js.join EmptyString (x :: y :: l))
    with (x +:+ EmptyString +:+ Js.join EmptyString (y :: l)).
  rewrite IH. reflexivity.
Qed.

(** Reading [p.text] throws exactly on a null part. *)
Lemma part_text_value p :
  is_null p = false ->
  part_text p =
  inr (if truthyV (get p "text") then get p "text" else Some (JStr EmptyString)).
Proof. destruct p; simpl; intros H; try reflexivity; discriminate. Qed.

Lemma part_text_null : part_text JNull = inl NullAccess.
Proof. reflexivity. Qed.

Lemma joinItem_fragment p :
  Reply.readable_part p = true ->
  joinItem (if truthyV (get p "text") then get p "text" else Some (JStr EmptyString)) =
  Some (Reply.fragment p).
Proof.
  unfold Reply.readable_part, Reply.fragment. intros H.
  apply andb_true_iff in H as [_ H].
  destruct (get p "text") as [t|]; simpl; [|reflexivity].
  destruct (truthy t) eqn:E; [|reflexivity].
  destruct (toString t) as [s|] eqn:Es; [|discriminate].
  destruct t; simpl in *; try discriminate; try exact Es.
Qed.

Lemma array_map_part_text ps :
  forallb Reply.readable_part ps = true ->
  exists texts,
    array_map part_text ps = inr texts /\
    joinItems texts = Some (map Reply.fragment ps).
Proof.
  induction ps as [|p ps IH]; simpl; intros H.
  - exists []. split; reflexivity.
  - apply andb_true_iff in H as [Hp Hps].
    destruct (IH Hps) as (texts & E & F).
    assert (Hn : is_null p = false).
    { unfold Reply.readable_part in Hp. apply andb_true_iff in Hp as [Hp _].
      apply negb_true_iff. exact Hp. }
    rewrite (part_text_value p Hn), E.
    eexists. split; [reflexivity|]. simpl. rewrite (joinItem_fragment p Hp), F. reflexivity.
Qed.

(** On a body whose first candidate has only parts a fragment can be read
    from, the script extracts exactly the Reply of the specification. *)
Lemma reply_of_text data :
  Reply.extractable data = true ->
  reply_of data = inr (Reply.text data).
Proof.
  unfold Reply.extractable, reply_of, Reply.text, Reply.first_candidate_parts.
  destruct data as [|b|r|s|items|props]; simpl; try reflexivity.
  - destruct b; reflexivity.
  - destruct (negb (r =? "0")%string); reflexivity.
  - destruct s; reflexivity.
  - destruct (assoc "candidates" props) as [[|?|?|?|[|cand rest]|?]|]; try reflexivity.
    destruct cand as [|b|r|s|items|cprops]; simpl; try reflexivity.
    + destruct b; reflexivity.
    + destruct (negb (r =? "0")%string); reflexivity.
    + destruct s; reflexivity.
    + destruct (assoc "content" cprops) as [content|]; simpl; [|reflexivity].
      destruct content as [|b|r|s|items|pprops]; simpl; try reflexivity.
      * destruct b; reflexivity.
      * destruct (negb (r =? "0")%string); reflexivity.
      * destruct s; reflexivity.
      * destruct (assoc "parts" pprops) as [[|?|?|?|ps|?]|]; try reflexivity.
        intros H. destruct (array_map_part_text ps H) as (texts & E & F).
        rewrite E. unfold join. rewrite F. simpl. rewrite join_empty. reflexivity.
Qed.

(** A body of the expected shape is extractable. *)
Lemma expected_shape_extractable (texts : list string) others :
  Reply.extractable
    (JObj [("candidates",
            JArr (JObj [("content",
                         JObj [("parts",
                                JArr (map (fun t => JObj [("text", JStr t)]) texts))])]
                  :: others))]) = true.
Proof.
  unfold Reply.extractable.
  change (Reply.first_candidate_parts _)
    with (map (fun t => JObj [("text", JStr t)]) texts).
  induction texts as [|t texts IH]; simpl; [reflexivity|]. exact IH.
Qed.

(** A null part makes the extraction throw. *)
Lemma array_map_null_first ps : array_map part_text (JNull :: ps) = inl NullAccess.
Proof. reflexivity. Qed.

(** On the expected body shape the Reply is the trimmed concatenation of
    the texts of the parts. *)
Lemma reply_text_expected_shape (texts : list string) others :
  Reply.text
    (JObj [("candidates",
            JArr (JObj [("content",
                         JObj [("parts",
                                JArr (map (fun t => JObj [("text", JStr t)]) texts))])]
                  :: others))]) =
  Js.trim (fold_right String.append EmptyString texts).
Proof.
  unfold Reply.text.
  change (Reply.first_candidate_parts _)
    with (map (fun t => JObj [("text", JStr t)]) texts).
  f_equal. f_equal.
  induction texts as [|t texts IH]; simpl; [reflexivity|].
  rewrite IH. f_equal. unfold Reply.fragment. simpl. destruct t; reflexivity.
Qed.

End ReplyFacts.

(** ** Properties of the request lifecycle *)

Module Properties.

Import Json Page Script Timeline Lifecycle Facts ReplyFacts.
Local Open Scope js_scope.

(** *** Submissions that are ignored *)

(** C9. Calling [sendMessage] while the Send button is disabled, or with an
    entry that trims to the empty text, changes nothing: the page is the
    same afterwards (no message, no request, no state change) and nothing
    is thrown. *)
Theorem submit_ignored w srv between :
  sendButton_disabled w = true \/ Js.trim (userInput_value w) = EmptyString ->
  sendMessage w = Ok None w /\ turn srv between w = Some (Ok tt w).
Proof.
  intros H.
  assert (Hr : ready w = false).
  { unfold ready, message_of. destruct H as [H|H]; rewrite H; simpl;
      [reflexivity|apply andb_false_r]. }
  split; [apply sendMessage_ignored|apply turn_ignored]; exact Hr.
Qed.

Lemma submit_ignored_witness :
  sendMessage Example.busy = Ok None Example.busy /\
  turn Silent [] Example.busy = Some (Ok tt Example.busy).
Proof. apply (submit_ignored Example.busy Silent []). left. reflexivity. Defined.

(** An entry of white space only is one that trims to the empty text. *)
Lemma blank_entry_ignored w srv between :
  Js.all_space (userInput_value w) = true ->
  turn srv between w = Some (Ok tt w).
Proof.
  intros H. apply submit_ignored. right. apply trim_all_space. exact H.
Qed.

(** *** The Save handler *)

(** C10. When the key field is marked as masked and still holds the mask,
    activating Save leaves the stored credential and the cached credential
    as they are. *)
Theorem masked_resubmit_keeps_credential w :
  tokenInput_masked w = Some "true" ->
  Js.trim (tokenInput_value w) = mask ->
  exists w',
    onSaveClick w = Ok tt w' /\
    localStorage w' = localStorage w /\
    GEMINI_API_KEY w' = GEMINI_API_KEY w.
Proof.
  intros Hm Hv. destruct w. unfold onSaveClick. run. subst. rewrite Hv.
  eexists. split; [reflexivity|]. run. split; reflexivity.
Qed.

Lemma masked_resubmit_witness :
  exists w',
    onSaveClick Example.revisited = Ok tt w' /\
    localStorage w' = localStorage Example.revisited /\
    GEMINI_API_KEY w' = GEMINI_API_KEY Example.revisited.
Proof. apply (masked_resubmit_keeps_credential Example.revisited); reflexivity. Defined.

(** The start-up block puts the key field in that state whenever the store
    holds a credential. *)
Lemma init_masks_saved_key w k :
  denied (localStorage w) = false ->
  items (localStorage w) !! storage_key = Some k ->
  Js.is_empty k = false ->
  exists w',
    init w = Ok tt w' /\
    tokenInput_masked w' = Some "true" /\
    tokenInput_value w' = mask /\
    GEMINI_API_KEY w' = Some k.
Proof.
  intros Hd Hk Hk'. destruct w as [? ? ? ? ? ? ? ? ? ? ? [it dn fl] ? ? ? ? ? ? ?].
  unfold init. run. subst. rewrite Hk. unfold nonempty. rewrite Hk'. run.
  eexists. split; [reflexivity|]. run. repeat split.
Qed.

(** *** Which credential is used *)

(** C3 (as amended). [sendMessage] uses the credential cached in the page
    whenever that one is non-empty, whatever the store holds; it falls back
    to the store only when nothing is cached. *)
Theorem credential_read_order w k :
  ready w = true ->
  Js.is_empty k = false ->
  GEMINI_API_KEY w = Some k \/
  (nonempty (GEMINI_API_KEY w) = false /\
   denied (localStorage w) = false /\
   items (localStorage w) !! storage_key = Some k) ->
  exists w',
    sendMessage w = Ok (Some (pending_of w)) w' /\
    requests w' = requests w ++ [request_of w k].
Proof.
  intros Hrd Hk H.
  assert (E : readable w = true /\ apiKey_of w = Some k).
  { unfold readable, apiKey_of. destruct H as [H|(H1 & H2 & H3)].
    - rewrite H. unfold nonempty. rewrite Hk. split; reflexivity.
    - rewrite H1, H2, H3. split; reflexivity. }
  destruct E as [Hr Ha].
  assert (Hc : configured w = true).
  { rewrite <- nonempty_apiKey_of, Ha. unfold nonempty. rewrite Hk. reflexivity. }
  exists (in_flight w). split; [apply sendMessage_sent; assumption|].
  destruct w. run. rewrite Ha. reflexivity.
Qed.

Lemma credential_read_order_witness :
  exists w',
    sendMessage Example.disagreeing = Ok (Some (pending_of Example.disagreeing)) w' /\
    requests w' = requests Example.disagreeing ++ [request_of Example.disagreeing "cached"].
Proof.
  apply (credential_read_order Example.disagreeing "cached");
    [reflexivity|reflexivity|left; reflexivity].
Defined.

(** C3, counterexample. The store holds one credential and the page caches
    another: the request goes out with the cached one. *)
Lemma cached_key_used_over_store :
  items (localStorage Example.disagreeing) !! storage_key = Some "stored" /\
  GEMINI_API_KEY Example.disagreeing = Some "cached" /\
  map req_url (requests (world_of (sendMessage Example.disagreeing))) =
    [endpoint "cached"] /\
  String.eqb (endpoint "cached") (endpoint "stored") = false.
Proof. repeat split; vm_compute; reflexivity. Qed.

(** *** No credential *)

(** C4. For every non-empty entry submitted when no credential is
    configured (nothing cached, and a readable store that holds none), no
    request is issued, the chat gains the user's message and exactly one
    assistant message, the one asking for a key, the placeholder is
    removed, and the Input Gate is open when the Turn ends. *)
Theorem no_credential_no_request w srv between :
  well_formed w = true ->
  ready w = true ->
  denied (localStorage w) = false ->
  configured w = false ->
  exists w',
    turn srv between w = Some (Ok tt w') /\
    requests w' = requests w /\
    completed w key_required_message w' /\
    visible (node_id (typing_node w)) w' = false.
Proof.
  intros Hwf Hrd Hd Hc.
  assert (Hr : readable w = true).
  { unfold readable. rewrite Hd. apply orb_true_r. }
  exists (asked w). split; [apply turn_without_credential; assumption|].
  split; [destruct w; reflexivity|].
  split; [apply asked_completed|].
  eapply completed_not_visible; [exact Hwf|apply asked_completed].
Qed.

Lemma no_credential_witness :
  exists w',
    turn Silent [] (Example.hello Example.empty_store) = Some (Ok tt w') /\
    requests w' = requests (Example.hello Example.empty_store) /\
    completed (Example.hello Example.empty_store) key_required_message w' /\
    visible (node_id (typing_node (Example.hello Example.empty_store))) w' = false.
Proof.
  apply (no_credential_no_request (Example.hello Example.empty_store) Silent []);
    reflexivity.
Defined.

(** *** Who settles the request *)

Lemma race_answered t st bt b :
  (t + bt < timeout_ms)%N ->
  race (Some timeout_ms) (Answers t st bt b) = ServerFirst (Fulfilled (MkResponse st b)).
Proof.
  intros H. unfold race.
  assert (E1 : (timeout_ms <=? t)%N = false) by (apply N.leb_gt; lia).
  assert (E2 : (timeout_ms <=? t + bt)%N = false) by (apply N.leb_gt; lia).
  rewrite E1, E2. reflexivity.
Qed.

Lemma race_timeout srv :
  settles_within srv timeout_ms = false ->
  race (Some timeout_ms) srv = TimerFirst (Rejected AbortError).
Proof.
  destruct srv as [|t|t st bt b]; simpl; intros H; try reflexivity;
    apply N.leb_gt in H;
    assert (E : (timeout_ms <=? t)%N = true) by (apply N.leb_le; lia);
    rewrite E; reflexivity.
Qed.

(** *** API errors *)

Lemma onResponse_api_error st data err m :
  ok (MkResponse st (Some data)) = false ->
  get data "error" = Some err ->
  get err "message" = Some (JStr m) ->
  Js.is_empty m = false ->
  onResponse (MkResponse st (Some data)) = inl (NewError ("API error: " +:+ m)).
Proof.
  intros Hok He Hm Hne. unfold onResponse. cbn [body status]. rewrite Hok. cbn [negb].
  destruct data; try discriminate. destruct err; try discriminate.
  unfold apiErr_of. cbn [truthy member]. rewrite He. cbn [truthy member].
  rewrite Hm. cbn [truthyV truthy]. rewrite Hne. cbn [negb truthyV truthy].
  rewrite Hne. reflexivity.
Qed.

(** C1 (as amended). With a credential present, when the API answers in
    time with a failure status and a body whose error carries a message,
    the Turn ends with the generic failure notice (followed by the tip when
    the credential was cleared in the meantime). The embedded message is
    written to the console only, inside the logged error. *)
Theorem api_error_is_logged_not_rendered w between t bt st data err m :
  well_formed w = true ->
  ready w = true ->
  readable w = true ->
  configured w = true ->
  (t + bt < timeout_ms)%N ->
  ok (MkResponse st (Some data)) = false ->
  get data "error" = Some err ->
  get err "message" = Some (JStr m) ->
  Js.is_empty m = false ->
  exists w',
    turn (Answers t st bt (Some data)) between w = Some (Ok tt w') /\
    completed w (failure_message +:+ hint_of (at_settlement w between)) w' /\
    console w' =
      console (at_settlement w between) ++
      [ConsoleError "Error:" (NewError ("API error: " +:+ m))].
Proof.
  intros Hwf Hrd Hr Hc Ht Hok He Hm Hne.
  destruct (turn_with_credential w (Answers t st bt (Some data)) between Hwf Hrd Hr Hc)
    as (s & w' & Hs & Hturn & Hdone & _ & _ & Hlog & _).
  rewrite race_answered in Hs by exact Ht. injection Hs as <-.
  exists w'. split; [exact Hturn|].
  unfold final_text, logged, outcome_of in Hdone, Hlog.
  rewrite (onResponse_api_error _ _ _ _ Hok He Hm Hne) in Hdone, Hlog.
  split; [exact Hdone|exact Hlog].
Qed.

Lemma api_error_witness :
  exists w',
    turn Example.quota_exceeded [] (Example.hello_with "secret" Example.empty_store) =
      Some (Ok tt w') /\
    completed (Example.hello_with "secret" Example.empty_store)
      (failure_message +:+
       hint_of (at_settlement (Example.hello_with "secret" Example.empty_store) [])) w' /\
    console w' =
      console (at_settlement (Example.hello_with "secret" Example.empty_store) []) ++
      [ConsoleError "Error:" (NewError ("API error: " +:+ "quota exceeded"))].
Proof.
  apply (api_error_is_logged_not_rendered
           (Example.hello_with "secret" Example.empty_store) [] 100 5 429
           Example.quota_body
           (JObj [("message", JStr "quota exceeded")]) "quota exceeded");
    reflexivity.
Defined.

(** C1, counterexample. HTTP 429 with an error message in the body: the
    assistant message is the generic notice, which does not contain the
    message of the body. *)
Lemma quota_message_not_rendered :
  option_map (fun r => Example.transcript (world_of r))
    (turn Example.quota_exceeded []
       (Example.hello_with "secret" Example.empty_store)) =
    Some ["Hello"; failure_message] /\
  Js.includes failure_message "quota exceeded" = false.
Proof. split; vm_compute; reflexivity. Qed.

(** *** Replies *)

(** C8 (as amended). With a credential present, when the API answers in
    time with a success status and a parseable body in which every part of
    the first candidate is one a fragment can be read from (not null, its
    text with a string form), the Turn ends without an error being logged,
    and its assistant message is the Reply of the specification, or the
    fixed text when that Reply is empty. *)
Theorem reply_is_rendered w between t bt st data :
  well_formed w = true ->
  ready w = true ->
  readable w = true ->
  configured w = true ->
  (t + bt < timeout_ms)%N ->
  ok (MkResponse st (Some data)) = true ->
  Reply.extractable data = true ->
  exists w',
    turn (Answers t st bt (Some data)) between w = Some (Ok tt w') /\
    completed w
      (if Js.is_empty (Reply.text data) then no_reply_message else Reply.text data) w' /\
    console w' = console (at_settlement w between).
Proof.
  intros Hwf Hrd Hr Hc Ht Hok Hnull.
  destruct (turn_with_credential w (Answers t st bt (Some data)) between Hwf Hrd Hr Hc)
    as (s & w' & Hs & Hturn & Hdone & _ & _ & Hlog & _).
  rewrite race_answered in Hs by exact Ht. injection Hs as <-.
  exists w'. split; [exact Hturn|].
  unfold final_text, logged, outcome_of, onResponse in Hdone, Hlog.
  cbn [body] in Hdone, Hlog. rewrite Hok in Hdone, Hlog. cbn [negb] in Hdone, Hlog.
  rewrite (reply_of_text data Hnull) in Hdone, Hlog.
  split; [exact Hdone|]. rewrite Hlog. apply app_nil_r.
Qed.

Lemma reply_is_rendered_witness :
  exists w',
    turn Example.no_candidates [] (Example.hello_with "secret" Example.empty_store) =
      Some (Ok tt w') /\
    completed (Example.hello_with "secret" Example.empty_store)
      (if Js.is_empty (Reply.text Example.no_candidates_body)
       then no_reply_message else Reply.text Example.no_candidates_body) w' /\
    console w' =
      console (at_settlement (Example.hello_with "secret" Example.empty_store) []).
Proof.
  apply (reply_is_rendered (Example.hello_with "secret" Example.empty_store) []
           100 5 200 Example.no_candidates_body);
    reflexivity.
Defined.

(** C8, counterexample. HTTP 200 with a parseable body whose first
    candidate has a null part: the Reply of the specification is empty, yet
    the Turn does not end with the fixed text but with the failure notice,
    and an error is logged. *)
Lemma null_part_ends_in_failure :
  option_map (fun r => (Example.transcript (world_of r), console (world_of r)))
    (turn Example.null_part []
       (Example.hello_with "secret" Example.empty_store)) =
    Some (["Hello"; failure_message], [ConsoleError "Error:" NullAccess]) /\
  Reply.text Example.null_part_body = EmptyString /\
  String.eqb failure_message no_reply_message = false.
Proof. repeat split; vm_compute; reflexivity. Qed.

(** The two scenarios of the specification with HTTP 200. *)
Lemma hi_there_scenario :
  option_map (fun r => Example.transcript (world_of r))
    (turn Example.hi_there [] (Example.hello_with "secret" Example.empty_store)) =
  Some ["Hello"; "Hi there"].
Proof. vm_compute. reflexivity. Qed.

Lemma no_candidates_scenario :
  option_map (fun r => (Example.transcript (world_of r), console (world_of r)))
    (turn Example.no_candidates [] (Example.hello_with "secret" Example.empty_store)) =
  Some (["Hello"; no_reply_message], []).
Proof. vm_compute. reflexivity. Qed.

(** *** Timeouts and other failures *)

Lemma abort_error_name e : name e = "AbortError" <-> e = AbortError.
Proof. destruct e; simpl; split; intros H; (reflexivity || discriminate). Qed.

(** The two failure wordings differ whatever follows them. *)
Lemma wordings_differ hint hint' :
  timed_out_message +:+ hint <> failure_message +:+ hint'.
Proof. unfold timed_out_message, failure_message. discriminate. Qed.

(** C5. With a credential present at submission: when the fetch promise
    does not settle by itself within 15000 ms, the timer aborts
    the request's controller, the request rejects with an AbortError and
    the Turn ends with the time-out wording; for every failure, the wording
    is the time-out one exactly for the abort, and the tip is appended
    exactly when no credential is configured at that moment. The two
    wordings differ. *)
Theorem timeout_is_told_apart w srv between :
  well_formed w = true ->
  ready w = true ->
  readable w = true ->
  configured w = true ->
  exists s w',
    winner (race (Some timeout_ms) srv) = Some s /\
    turn srv between w = Some (Ok tt w') /\
    (settles_within srv timeout_ms = false ->
       s = Rejected AbortError /\
       In (next_controller w) (aborted w') /\
       completed w (timed_out_message +:+ hint_of (at_settlement w between)) w') /\
    (forall e, outcome_of s = inl e ->
       completed w
         ((if String.eqb (name e) "AbortError"
           then timed_out_message else failure_message) +:+
          (if configured (at_settlement w between) then EmptyString else tip)) w' /\
       (name e = "AbortError" <-> e = AbortError)) /\
    (forall hint hint', timed_out_message +:+ hint <> failure_message +:+ hint').
Proof.
  intros Hwf Hrd Hr Hc.
  destruct (turn_with_credential w srv between Hwf Hrd Hr Hc)
    as (s & w' & Hs & Hturn & Hdone & _ & _ & _ & Hab & _).
  exists s, w'. split; [exact Hs|]. split; [exact Hturn|].
  fold (at_settlement w between) in Hdone.
  split; [|split; [|exact wordings_differ]].
  - intros Hslow. rewrite (race_timeout srv Hslow) in Hs, Hab.
    injection Hs as <-. split; [reflexivity|].
    split; [rewrite Hab; left; reflexivity|]. exact Hdone.
  - intros e He. split; [|apply abort_error_name].
    unfold final_text in Hdone. rewrite He in Hdone. exact Hdone.
Qed.

Lemma timeout_witness :
  exists s w',
    winner (race (Some timeout_ms) Silent) = Some s /\
    turn Silent [] (Example.hello_with "secret" Example.empty_store) = Some (Ok tt w') /\
    (settles_within Silent timeout_ms = false ->
       s = Rejected AbortError /\
       In (next_controller (Example.hello_with "secret" Example.empty_store)) (aborted w') /\
       completed (Example.hello_with "secret" Example.empty_store)
         (timed_out_message +:+
          hint_of (at_settlement (Example.hello_with "secret" Example.empty_store) [])) w') /\
    (forall e, outcome_of s = inl e ->
       completed (Example.hello_with "secret" Example.empty_store)
         ((if String.eqb (name e) "AbortError"
           then timed_out_message else failure_message) +:+
          (if configured (at_settlement (Example.hello_with "secret" Example.empty_store) [])
           then EmptyString else tip)) w' /\
       (name e = "AbortError" <-> e = AbortError)) /\
    (forall hint hint', timed_out_message +:+ hint <> failure_message +:+ hint').
Proof.
  apply (timeout_is_told_apart (Example.hello_with "secret" Example.empty_store) Silent []);
    reflexivity.
Defined.

(** The time-out scenario of the specification, and the same with the
    credential cleared while the request was in flight. *)
Lemma timeout_scenario :
  option_map (fun r => Example.transcript (world_of r))
    (turn Silent [] (Example.hello_with "secret" Example.empty_store)) =
  Some ["Hello"; "The request timed out. Please try again."].
Proof. vm_compute. reflexivity. Qed.

Lemma timeout_after_clearing_scenario :
  option_map (fun r => Example.transcript (world_of r))
    (turn Silent [TypeKey EmptyString; ClickSave]
       (Example.hello_with "secret" Example.empty_store)) =
  Some ["Hello";
        "The request timed out. Please try again. Tip: Save your Gemini API key to proceed."].
Proof. vm_compute. reflexivity. Qed.

(** A timer that fires while the body is still being read is not reported
    as a time-out: [response.json()] rejects inside the try block and the
    error thrown from the catch block is an ordinary one. *)
Lemma abort_during_body_scenario :
  option_map (fun r => (Example.transcript (world_of r), console (world_of r)))
    (turn (Answers 100 200 20000 (Some Example.hi_there_body)) []
       (Example.hello_with "secret" Example.empty_store)) =
  Some (["Hello"; failure_message],
        [ConsoleError "Error:" (NewError "Invalid JSON from API (200)")]).
Proof. vm_compute. reflexivity. Qed.

(** *** The timer *)

(** Every Turn that issues a request ends with its timer cleared. *)
Lemma timer_cleared_after_request w srv between :
  well_formed w = true ->
  ready w = true ->
  readable w = true ->
  configured w = true ->
  exists w',
    turn srv between w = Some (Ok tt w') /\
    timer_pending (next_timer w) w' = false.
Proof.
  intros Hwf Hrd Hr Hc.
  destruct (turn_with_credential w srv between Hwf Hrd Hr Hc)
    as (s & w' & _ & Hturn & _ & _ & Hp & _).
  exists w'. split; assumption.
Qed.

(** C2, the missing-credential path. The timer is set before the
    credential is read and the early return does not clear it: when the
    Turn has ended and the Input Gate is open again, the timer is still
    pending. *)
Theorem timer_left_pending_without_credential w srv between :
  well_formed w = true ->
  ready w = true ->
  denied (localStorage w) = false ->
  configured w = false ->
  exists w',
    turn srv between w = Some (Ok tt w') /\
    unlocked w' = true /\
    timer_pending (next_timer w) w' = true /\
    In (MkTimer (next_timer w) timeout_ms (Abort (next_controller w))) (timers w').
Proof.
  intros Hwf Hrd Hd Hc.
  assert (Hr : readable w = true).
  { unfold readable. rewrite Hd. apply orb_true_r. }
  exists (asked w). split; [apply turn_without_credential; assumption|].
  destruct w. run. split; [reflexivity|]. split.
  - rewrite existsb_app. simpl. rewrite Nat.eqb_refl. simpl. apply orb_true_r.
  - apply in_or_app. right. left. reflexivity.
Qed.

Lemma timer_left_pending_witness :
  exists w',
    turn Silent [] (Example.hello Example.empty_store) = Some (Ok tt w') /\
    unlocked w' = true /\
    timer_pending (next_timer (Example.hello Example.empty_store)) w' = true /\
    In (MkTimer (next_timer (Example.hello Example.empty_store)) timeout_ms
          (Abort (next_controller (Example.hello Example.empty_store)))) (timers w').
Proof.
  apply (timer_left_pending_without_credential
           (Example.hello Example.empty_store) Silent []); reflexivity.
Defined.

(** When that leftover timer fires, it aborts a controller no request
    listens to: the chat, the Input Gate and the request log stay as they
    are. *)
Lemma leftover_timer_harmless w :
  well_formed w = true ->
  exists w',
    fire (next_timer w) (asked w) = Ok tt w' /\
    chatContainer w' = chatContainer (asked w) /\
    rendered w' = rendered (asked w) /\
    requests w' = requests (asked w) /\
    unlocked w' = true /\
    timer_pending (next_timer w) w' = false.
Proof.
  intros Hwf. apply andb_true_iff in Hwf as [_ Ht].
  assert (E : find (fun t => timer_id t =? next_timer w) (timers (asked w)) =
              Some (MkTimer (next_timer w) timeout_ms (Abort (next_controller w)))).
  { destruct w. run. apply find_fresh_timer; [exact Ht|reflexivity]. }
  destruct w. unfold fire. run. rewrite E. run.
  eexists. split; [reflexivity|]. run. repeat split. apply timer_filter_out.
Qed.

(** *** The placeholder and the Input Gate *)

(** Whenever the credential can be read, a Turn ends, and it ends
    completed: the placeholder was removed once, before the one assistant
    message, and the Input Gate is open with the focus in the entry field. *)
Lemma turn_completes w srv between :
  well_formed w = true ->
  ready w = true ->
  readable w = true ->
  exists text w',
    turn srv between w = Some (Ok tt w') /\
    completed w text w' /\
    visible (node_id (typing_node w)) w' = false /\
    unlocked w' = true.
Proof.
  intros Hwf Hrd Hr. destruct (configured w) eqn:Hc.
  - destruct (turn_with_credential w srv between Hwf Hrd Hr Hc)
      as (s & w' & _ & Hturn & Hdone & _).
    exists (final_text s (key_events between (in_flight w))), w'.
    split; [exact Hturn|]. split; [exact Hdone|].
    split; [eapply completed_not_visible; eassumption|].
    destruct Hdone as (_ & _ & H1 & H2 & _). unfold unlocked. rewrite H1, H2. reflexivity.
  - exists key_required_message, (asked w).
    split; [apply turn_without_credential; assumption|].
    split; [apply asked_completed|].
    split; [eapply completed_not_visible; [exact Hwf|apply asked_completed]|].
    destruct w. reflexivity.
Qed.

(** Every Turn keeps the identities fresh, so every page reached from a
    blank one by the script's handlers is well formed. *)
Lemma turn_keeps_well_formed w srv between r :
  well_formed w = true ->
  turn srv between w = Some r ->
  well_formed (world_of r) = true.
Proof.
  intros Hwf Hturn. destruct (ready w) eqn:Hrd.
  - destruct (readable w) eqn:Hr.
    + destruct (configured w) eqn:Hc.
      * destruct (turn_with_credential w srv between Hwf Hrd Hr Hc)
          as (s & w' & _ & E & _ & _ & _ & _ & _ & Hwf').
        rewrite E in Hturn. injection Hturn as <-. exact Hwf'.
      * rewrite (turn_without_credential w srv between Hwf Hrd Hr Hc) in Hturn.
        injection Hturn as <-. apply well_formed_asked. exact Hwf.
    + rewrite (turn_stuck w srv between Hrd Hr) in Hturn.
      injection Hturn as <-. apply well_formed_stuck. exact Hwf.
  - rewrite (turn_ignored w srv between Hrd) in Hturn.
    injection Hturn as <-. exact Hwf.
Qed.

(** C6, the path on which the claim fails. When nothing is cached and the
    store denies access, reading the credential throws after the
    placeholder was appended: the exception leaves the click handler, the
    placeholder is never removed and stays in the chat. *)
Theorem placeholder_stays_when_store_denied w srv between :
  ready w = true ->
  readable w = false ->
  exists w',
    turn srv between w = Some (Thrown SecurityError w') /\
    rendered w' = rendered w ++ [Appended (user_node w); Appended (typing_node w)] /\
    visible (node_id (typing_node w)) w' = true.
Proof.
  intros Hrd Hr. exists (stuck w). split; [apply turn_stuck; assumption|].
  destruct w as [chat nn ? ? ? ? ? ? ? ? ? ? ? ? ? ? ? ? ?]. run.
  split; [reflexivity|].
  change (chat ++ [?u; ?t]) with (chat ++ [u] ++ [t]). rewrite app_assoc.
  apply existsb_snoc_self.
Qed.

Lemma placeholder_stays_witness :
  exists w',
    turn Silent [] (Example.hello Example.denied_store) = Some (Thrown SecurityError w') /\
    rendered w' =
      rendered (Example.hello Example.denied_store) ++
      [Appended (user_node (Example.hello Example.denied_store));
       Appended (typing_node (Example.hello Example.denied_store))] /\
    visible (node_id (typing_node (Example.hello Example.denied_store))) w' = true.
Proof.
  apply (placeholder_stays_when_store_denied (Example.hello Example.denied_store) Silent []);
    reflexivity.
Defined.

(** C7, the path on which the claim fails. On the same path the entry
    field and the Send button stay disabled, and every later submission is
    ignored. *)
Theorem gate_stays_locked_when_store_denied w srv between :
  ready w = true ->
  readable w = false ->
  exists w',
    turn srv between w = Some (Thrown SecurityError w') /\
    userInput_disabled w' = true /\
    sendButton_disabled w' = true /\
    forall srv' between', turn srv' between' w' = Some (Ok tt w').
Proof.
  intros Hrd Hr. exists (stuck w). split; [apply turn_stuck; assumption|].
  split; [destruct w; reflexivity|]. split; [destruct w; reflexivity|].
  intros srv' between'. apply turn_ignored. destruct w. reflexivity.
Qed.

Lemma gate_stays_locked_witness :
  exists w',
    turn Silent [] (Example.hello Example.denied_store) = Some (Thrown SecurityError w') /\
    userInput_disabled w' = true /\
    sendButton_disabled w' = true /\
    forall srv' between', turn srv' between' w' = Some (Ok tt w').
Proof.
  apply (gate_stays_locked_when_store_denied (Example.hello Example.denied_store) Silent []);
    reflexivity.
Defined.

End Properties.

(** ** Further properties of the handlers *)

Module Coverage.

Import Json Page Script Timeline Lifecycle Facts ReplyFacts.
Local Open Scope js_scope.

(** *** Every Turn, path by path *)

Lemma race_settles srv :
  winner (race (Some timeout_ms) srv) = Some (settlement_of srv).
Proof.
  unfold settlement_of, race. destruct srv as [|t|t st bt b]; [reflexivity| |].
  - destruct (timeout_ms <=? t)%N; reflexivity.
  - destruct (timeout_ms <=? t)%N; [reflexivity|].
    destruct (timeout_ms <=? t + bt)%N; reflexivity.
Qed.

Lemma await_in_flight w srv between :
  well_formed w = true ->
  await_response (pending_of w) srv (at_settlement w between) =
  Some (settlement_of srv, settlement_page w srv between).
Proof.
  intros Hwf. unfold await_response, at_settlement, settlement_page, settlement_of.
  rewrite in_flight_deadline by assumption.
  pose proof (in_flight_timer w between Hwf) as Ht.
  assert (Hfire : world_of (fire (timeoutId (pending_of w))
                              (key_events between (in_flight w))) =
                  with_aborted (fun l => next_controller w :: l)
                    (with_timers
                       (List.filter (fun t => negb (timer_id t =? next_timer w)))
                       (key_events between (in_flight w)))).
  { replace (timeoutId (pending_of w)) with (next_timer w) by (destruct w; reflexivity).
    eapply fire_abort. exact Ht. }
  unfold at_settlement. rewrite Hfire.
  unfold race. destruct srv as [|t|t st bt b]; [reflexivity| |].
  - destruct (timeout_ms <=? t)%N; reflexivity.
  - destruct (timeout_ms <=? t)%N; [reflexivity|].
    destruct (timeout_ms <=? t + bt)%N; reflexivity.
Qed.

(** What the page at settlement shares with the page in flight. *)
Lemma settlement_page_frame w srv between :
  chatContainer (settlement_page w srv between) = chatContainer (in_flight w) /\
  next_node (settlement_page w srv between) = next_node (in_flight w) /\
  rendered (settlement_page w srv between) = rendered (in_flight w) /\
  requests (settlement_page w srv between) = requests (in_flight w) /\
  userInput_value (settlement_page w srv between) = userInput_value (in_flight w) /\
  GEMINI_API_KEY (settlement_page w srv between) =
    GEMINI_API_KEY (at_settlement w between) /\
  localStorage (settlement_page w srv between) =
    localStorage (at_settlement w between) /\
  console (settlement_page w srv between) = console (at_settlement w between) /\
  (readable w = true -> readable (settlement_page w srv between) = true).
Proof.
  pose proof (key_events_frame between (in_flight w)) as F.
  fold (at_settlement w between) in F.
  destruct F as (Fc & Fn & Fv & _ & _ & _ & _ & _ & Frn & Frq & _ & Fr).
  assert (Hr : readable w = true -> readable (at_settlement w between) = true).
  { intros H. apply Fr. destruct w. exact H. }
  unfold settlement_page. destruct (timer_fired _).
  - generalize dependent (at_settlement w between). intros w2 Fc Fn Fv Frn Frq Fr Hr.
    destruct w2. run. repeat split; assumption.
  - repeat split; assumption.
Qed.

Lemma turn_explicit w srv between :
  well_formed w = true ->
  ready w = true ->
  readable w = true ->
  configured w = true ->
  turn srv between w = Some (Ok tt (ended w srv between)).
Proof.
  intros Hwf Hrd Hr Hc. unfold turn. rewrite sendMessage_sent by assumption.
  fold (at_settlement w between). rewrite await_in_flight by assumption.
  destruct (settlement_page_frame w srv between)
    as (Fc & _ & _ & _ & _ & _ & _ & _ & Fr).
  rewrite chain_settled; [reflexivity| |apply Fr; exact Hr].
  apply in_flight_visible. exact Fc.
Qed.

Lemma turn_total w srv between :
  well_formed w = true ->
  turn srv between w = Some (after_turn w srv between).
Proof.
  intros Hwf. unfold after_turn. destruct (ready w) eqn:Hrd; simpl.
  - destruct (readable w) eqn:Hr; simpl.
    + destruct (configured w) eqn:Hc.
      * apply turn_explicit; assumption.
      * apply turn_without_credential; assumption.
    + apply turn_stuck; assumption.
  - apply turn_ignored. exact Hrd.
Qed.

(** *** The start-up block *)

(** X1. The start-up block never throws, whatever the state of the store,
    and it only touches the cache, the key widget and the console: the
    store, the chat, the request log and the timers are as before. When the
    store denies access it caches nothing and logs a warning; when the store
    holds no key it changes nothing at all. *)
Theorem init_never_throws w :
  exists w',
    init w = Ok tt w' /\
    localStorage w' = localStorage w /\
    chatContainer w' = chatContainer w /\
    requests w' = requests w /\
    timers w' = timers w /\
    (denied (localStorage w) = true ->
       GEMINI_API_KEY w' = GEMINI_API_KEY w /\
       console w' = console w ++ [ConsoleWarn "Token storage unavailable:" SecurityError]) /\
    (denied (localStorage w) = false ->
       nonempty (items (localStorage w) !! storage_key) = false -> w' = w).
Proof.
  destruct w as [? ? ? ? ? ? ? ? ? ? ? [it dn fl] ? ? ? ? ? ? ?].
  unfold init. run. destruct dn; run.
  - eexists. split; [reflexivity|]. run.
    repeat split; try reflexivity; discriminate.
  - destruct (nonempty (it !! storage_key)) eqn:E; run;
      (eexists; split; [reflexivity|]); run;
      repeat split; try reflexivity; try discriminate.
Qed.

(** *** The Save handler *)

Lemma typed_key_new w :
  new_key_typed w = true ->
  Js.is_empty (Js.trim (tokenInput_value w)) = false /\
  is_masked (tokenInput_masked w) && String.eqb (Js.trim (tokenInput_value w)) mask = false.
Proof.
  unfold new_key_typed, typed_key. intros H. apply andb_true_iff in H as [H1 H2].
  apply negb_true_iff in H1, H2. split; assumption.
Qed.

(** X2. Saving a new key while the store accepts writes persists it: a
    page loaded afterwards over the same store caches exactly the trimmed
    key, and shows the mask instead of the key. *)
Theorem saved_key_survives_reload w label :
  new_key_typed w = true ->
  writable (localStorage w) = true ->
  exists w' w'',
    onSaveClick w = Ok tt w' /\
    init (blank label (localStorage w')) = Ok tt w'' /\
    GEMINI_API_KEY w'' = Some (typed_key w) /\
    tokenInput_value w'' = mask /\
    tokenInput_masked w'' = Some "true" /\
    saveTokenBtn_textContent w'' = "Key Saved".
Proof.
  intros Hnew Hwr. apply typed_key_new in Hnew as [Hne Hm].
  unfold writable in Hwr. apply andb_true_iff in Hwr as [Hd Hf].
  apply negb_true_iff in Hd, Hf.
  destruct w as [? ? ? ? ? ? value attr ? ? key [it dn fl] ? ? ? ? ? ? ?].
  unfold typed_key, onSaveClick, init, blank. run. subst.
  rewrite Hne. run. rewrite Hm. run.
  eexists. eexists. split; [reflexivity|]. run.
  rewrite lookup_insert_eq. unfold nonempty. rewrite Hne. run.
  repeat split.
Qed.

Lemma saved_key_survives_reload_witness :
  exists w' w'',
    onSaveClick (Example.typing_key " secret " Example.empty_store) = Ok tt w' /\
    init (blank "Save Key" (localStorage w')) = Ok tt w'' /\
    GEMINI_API_KEY w'' = Some (typed_key (Example.typing_key " secret " Example.empty_store)) /\
    tokenInput_value w'' = mask /\
    tokenInput_masked w'' = Some "true" /\
    saveTokenBtn_textContent w'' = "Key Saved".
Proof.
  apply (saved_key_survives_reload
           (Example.typing_key " secret " Example.empty_store) "Save Key");
    reflexivity.
Defined.

(** X3. A key saved that way is the one the next submission sends: the
    request that follows carries the trimmed content of the key field,
    whatever credential was cached or stored before. *)
Theorem saved_key_is_used_by_next_submission w :
  new_key_typed w = true ->
  writable (localStorage w) = true ->
  ready w = true ->
  exists w' w'',
    onSaveClick w = Ok tt w' /\
    sendMessage w' = Ok (Some (pending_of w')) w'' /\
    requests w'' = requests w ++ [request_of w (typed_key w)].
Proof.
  intros Hnew Hwr Hrd. apply typed_key_new in Hnew as [Hne Hm].
  unfold writable in Hwr. apply andb_true_iff in Hwr as [Hd Hf].
  apply negb_true_iff in Hd, Hf.
  assert (Hsave : exists w',
             onSaveClick w = Ok tt w' /\
             GEMINI_API_KEY w' = Some (typed_key w) /\
             ready w' = ready w /\ requests w' = requests w /\
             request_of w' (typed_key w) = request_of w (typed_key w)).
  { destruct w as [? ? ? ? ? ? value attr ? ? key [it dn fl] ? ? ? ? ? ? ?].
    unfold typed_key, onSaveClick. run. subst. rewrite Hne. run. rewrite Hm. run.
    eexists. split; [reflexivity|]. repeat split. }
  destruct Hsave as (w' & Hs & Hk & Hrd' & Hrq & Hreq).
  assert (Hk' : nonempty (GEMINI_API_KEY w') = true).
  { rewrite Hk. unfold nonempty, typed_key. rewrite Hne. reflexivity. }
  assert (Hr : readable w' = true) by (unfold readable; rewrite Hk'; reflexivity).
  assert (Hc : configured w' = true) by (unfold configured; rewrite Hk'; reflexivity).
  exists w', (in_flight w'). split; [exact Hs|].
  split; [apply sendMessage_sent; congruence|].
  rewrite <- Hrq, <- Hreq.
  assert (Ha : apiKey_of w' = Some (typed_key w)).
  { unfold apiKey_of. rewrite Hk'. exact Hk. }
  clear Hs Hrq Hreq. destruct w'. run. rewrite Ha. reflexivity.
Qed.

Lemma saved_key_is_used_witness :
  exists w' w'',
    onSaveClick (with_tokenInput_value "fresh" Example.disagreeing) = Ok tt w' /\
    sendMessage w' = Ok (Some (pending_of w')) w'' /\
    requests w'' =
      requests (with_tokenInput_value "fresh" Example.disagreeing) ++
      [request_of (with_tokenInput_value "fresh" Example.disagreeing)
         (typed_key (with_tokenInput_value "fresh" Example.disagreeing))].
Proof.
  apply (saved_key_is_used_by_next_submission
           (with_tokenInput_value "fresh" Example.disagreeing)); reflexivity.
Defined.

(** X4. Activating Save on an empty key field, with a store that allows
    access, clears the credential everywhere: nothing is configured any
    more, and the next submission issues no request and asks for a key. *)
Theorem cleared_key_is_asked_for w srv between :
  well_formed w = true ->
  ready w = true ->
  Js.is_empty (typed_key w) = true ->
  denied (localStorage w) = false ->
  exists w' w'',
    onSaveClick w = Ok tt w' /\
    configured w' = false /\
    saveTokenBtn_textContent w' = "Key Cleared" /\
    turn srv between w' = Some (Ok tt w'') /\
    requests w'' = requests w /\
    completed w' key_required_message w''.
Proof.
  intros Hwf Hrd He Hd.
  assert (Hsave : exists w',
             onSaveClick w = Ok tt w' /\ configured w' = false /\
             saveTokenBtn_textContent w' = "Key Cleared" /\
             well_formed w' = true /\ ready w' = true /\ readable w' = true /\
             requests w' = requests w).
  { pose proof (well_formed_key_event ClickSave w Hwf) as Hwf'. simpl in Hwf'.
    destruct w as [? ? ? ? ? ? value attr ? ? key [it dn fl] ? ? ? ? ? ? ?].
    unfold typed_key, onSaveClick in *. run. subst. rewrite He in *. run.
    eexists. split; [reflexivity|]. run. rewrite lookup_delete_eq.
    repeat split; assumption. }
  destruct Hsave as (w' & Hs & Hc & Hl & Hwf' & Hrd' & Hr' & Hrq).
  exists w', (asked w'). split; [exact Hs|]. split; [exact Hc|]. split; [exact Hl|].
  split; [apply turn_without_credential; assumption|].
  split; [rewrite <- Hrq; destruct w'; reflexivity|apply asked_completed].
Qed.

Lemma cleared_key_is_asked_for_witness :
  exists w' w'',
    onSaveClick (Example.hello_with "secret" (Example.store_with "secret")) = Ok tt w' /\
    configured w' = false /\
    saveTokenBtn_textContent w' = "Key Cleared" /\
    turn Silent [] w' = Some (Ok tt w'') /\
    requests w'' = requests (Example.hello_with "secret" (Example.store_with "secret")) /\
    completed w' key_required_message w''.
Proof.
  apply (cleared_key_is_asked_for
           (Example.hello_with "secret" (Example.store_with "secret")) Silent []);
    reflexivity.
Defined.

(** X5. When the store refuses the operation of the Save handler (a new
    key with a store that is full or denies access, or a clearing with a
    store that denies access), the handler does not throw: it logs the
    error, shows Save Failed, and leaves the cached credential, the store
    and the key field as they were. In particular the typed key is not
    cached either. *)
Theorem failed_save_changes_no_credential w :
  (new_key_typed w = true /\ writable (localStorage w) = false) \/
  (Js.is_empty (typed_key w) = true /\ denied (localStorage w) = true) ->
  exists w' e,
    onSaveClick w = Ok tt w' /\
    GEMINI_API_KEY w' = GEMINI_API_KEY w /\
    localStorage w' = localStorage w /\
    tokenInput_value w' = tokenInput_value w /\
    tokenInput_masked w' = tokenInput_masked w /\
    saveTokenBtn_textContent w' = "Save Failed" /\
    console w' = console w ++ [ConsoleError "Failed to save key:" e].
Proof.
  intros [[Hnew Hwr]|[He Hd]].
  - apply typed_key_new in Hnew as [Hne Hm].
    unfold writable in Hwr. apply andb_false_iff in Hwr.
    destruct w as [? ? ? ? ? ? value attr ? ? key [it dn fl] ? ? ? ? ? ? ?].
    unfold onSaveClick. run. rewrite Hne. run. rewrite Hm. run.
    destruct dn; run.
    + eexists. eexists. split; [reflexivity|]. run. repeat split.
    + destruct fl; run.
      * eexists. eexists. split; [reflexivity|]. run. repeat split.
      * destruct Hwr as [Hwr|Hwr]; discriminate.
  - destruct w as [? ? ? ? ? ? value attr ? ? key [it dn fl] ? ? ? ? ? ? ?].
    unfold typed_key, onSaveClick in *. run. subst. rewrite He. run.
    eexists. eexists. split; [reflexivity|]. run. repeat split.
Qed.

Lemma failed_save_witness :
  exists w' e,
    onSaveClick (Example.typing_key "secret" Example.full_store) = Ok tt w' /\
    GEMINI_API_KEY w' = GEMINI_API_KEY (Example.typing_key "secret" Example.full_store) /\
    localStorage w' = localStorage (Example.typing_key "secret" Example.full_store) /\
    tokenInput_value w' = tokenInput_value (Example.typing_key "secret" Example.full_store) /\
    tokenInput_masked w' = tokenInput_masked (Example.typing_key "secret" Example.full_store) /\
    saveTokenBtn_textContent w' = "Save Failed" /\
    console w' =
      console (Example.typing_key "secret" Example.full_store) ++
      [ConsoleError "Failed to save key:" e].
Proof.
  apply (failed_save_changes_no_credential (Example.typing_key "secret" Example.full_store)).
  left. split; reflexivity.
Defined.

Lemma filter_fresh_timer i (l : list Timer) :
  forallb (fun t => timer_id t <? i) l = true ->
  List.filter (fun t => negb (timer_id t =? i)) l = l.
Proof.
  induction l as [|t l IH]; simpl; [reflexivity|].
  intros H. apply andb_true_iff in H as [Ht Hl]. apply Nat.ltb_lt in Ht.
  destruct (Nat.eqb_spec (timer_id t) i); [lia|]. simpl. f_equal. auto.
Qed.

Lemma find_filter_out i (l : list Timer) :
  find (fun t => timer_id t =? i) (List.filter (fun t => negb (timer_id t =? i)) l) = None.
Proof.
  induction l as [|t l IH]; simpl; [reflexivity|].
  destruct (timer_id t =? i) eqn:E; simpl; [assumption|]. rewrite E. assumption.
Qed.

(** X6. Every activation of Save, whatever its outcome, returns normally
    and schedules exactly one timer; when that timer fires the button reads
    Save Key again and the timer list is as before the click. The click and
    the firing leave the chat, the Input Gate and the request log alone. *)
Theorem save_label_always_resets w :
  well_formed w = true ->
  exists w' w'' d,
    onSaveClick w = Ok tt w' /\
    timers w' = timers w ++ [MkTimer (next_timer w) d (SetSaveLabel "Save Key")] /\
    fire (next_timer w) w' = Ok tt w'' /\
    saveTokenBtn_textContent w'' = "Save Key" /\
    timers w'' = timers w /\
    chatContainer w'' = chatContainer w /\
    userInput_disabled w'' = userInput_disabled w /\
    sendButton_disabled w'' = sendButton_disabled w /\
    requests w'' = requests w.
Proof.
  intros Hwf. apply andb_true_iff in Hwf as [_ Ht].
  destruct w as [? ? ? ? ? ? value attr ? ? key [it dn fl] tm nt ? ? ? ? ?].
  simpl in Ht.
  assert (Hfind : forall d,
    find (fun t => timer_id t =? nt) (tm ++ [MkTimer nt d (SetSaveLabel "Save Key")]) =
    Some (MkTimer nt d (SetSaveLabel "Save Key")))
    by (intros; apply find_fresh_timer; [exact Ht|reflexivity]).
  assert (Hfilter : forall d,
    List.filter (fun t => negb (timer_id t =? nt))
      (tm ++ [MkTimer nt d (SetSaveLabel "Save Key")]) = tm).
  { intros d. rewrite List.filter_app, (filter_fresh_timer _ _ Ht). simpl.
    rewrite Nat.eqb_refl. simpl. apply app_nil_r. }
  unfold onSaveClick, fire. run.
  destruct (Js.is_empty (Js.trim value)); run.
  - destruct dn; run; do 3 eexists; (split; [reflexivity|]); run;
      (split; [reflexivity|]); rewrite Hfind; run; (split; [reflexivity|]); run;
      rewrite Hfilter; repeat split.
  - destruct (is_masked attr && String.eqb (Js.trim value) mask); run.
    + do 3 eexists. split; [reflexivity|]. run.
      split; [reflexivity|]. rewrite Hfind. run. split; [reflexivity|]. run.
      rewrite Hfilter. repeat split.
    + destruct dn; run; [|destruct fl; run];
        do 3 eexists; (split; [reflexivity|]); run;
        (split; [reflexivity|]); rewrite Hfind; run; (split; [reflexivity|]); run;
        rewrite Hfilter; repeat split.
Qed.

Lemma save_label_witness :
  exists w' w'' d,
    onSaveClick (Example.typing_key "secret" Example.empty_store) = Ok tt w' /\
    timers w' =
      timers (Example.typing_key "secret" Example.empty_store) ++
      [MkTimer (next_timer (Example.typing_key "secret" Example.empty_store)) d
         (SetSaveLabel "Save Key")] /\
    fire (next_timer (Example.typing_key "secret" Example.empty_store)) w' = Ok tt w'' /\
    saveTokenBtn_textContent w'' = "Save Key" /\
    timers w'' = timers (Example.typing_key "secret" Example.empty_store) /\
    chatContainer w'' = chatContainer (Example.typing_key "secret" Example.empty_store) /\
    userInput_disabled w'' =
      userInput_disabled (Example.typing_key "secret" Example.empty_store) /\
    sendButton_disabled w'' =
      sendButton_disabled (Example.typing_key "secret" Example.empty_store) /\
    requests w'' = requests (Example.typing_key "secret" Example.empty_store).
Proof.
  apply (save_label_always_resets (Example.typing_key "secret" Example.empty_store)).
  reflexivity.
Defined.

(** *** The cache and the store *)

Lemma in_sync_key_event ev w : in_sync w -> in_sync (world_of (key_event ev w)).
Proof.
  destruct w as [? ? ? ? ? ? value attr ? ? key [it dn fl] ? ? ? ? ? ? ?].
  unfold in_sync. destruct ev as [text|]; simpl; unfold onSaveClick; run;
    [exact (fun H => H)|].
  intros Hs.
  destruct (Js.is_empty (Js.trim value)); run.
  - destruct dn; run; [exact Hs|]. rewrite lookup_delete_eq. discriminate.
  - destruct (is_masked attr && String.eqb (Js.trim value) mask); run; [exact Hs|].
    destruct dn; run; [exact Hs|]. destruct fl; run; [exact Hs|].
    rewrite lookup_insert_eq. reflexivity.
Qed.

(** X7. The script never makes the cached credential and the stored one
    disagree. On a page that caches nothing yet, the start-up block over a
    store that allows access leaves them in agreement; and from a page
    where they agree, no sequence of edits of the key field and Save
    activations, successful or failed, breaks the agreement. *)
Theorem cache_follows_store w evs :
  (GEMINI_API_KEY w = None -> denied (localStorage w) = false ->
     in_sync (world_of (init w))) /\
  (in_sync w -> in_sync (key_events evs w)).
Proof.
  split.
  - destruct w as [? ? ? ? ? ? ? ? ? ? key [it dn fl] ? ? ? ? ? ? ?].
    unfold in_sync, init. run. intros -> ->. run.
    destruct (nonempty (it !! storage_key)) eqn:E; run.
    + reflexivity.
    + rewrite E. discriminate.
  - unfold key_events. revert w. induction evs as [|ev evs IH]; intros w H; simpl;
      [exact H|]. apply IH. apply in_sync_key_event. exact H.
Qed.

(** *** Turns *)

(** X8. No Turn hangs. On every well-formed page, whatever the server does
    (even if it never answers) and whatever happens to the key widget in
    the meantime, a submission comes to an end: the 15000 ms timer settles
    a request that the server leaves open. *)
Theorem turn_always_ends w srv between :
  well_formed w = true -> exists r, turn srv between w = Some r.
Proof. intros Hwf. eexists. apply turn_total. exact Hwf. Qed.

Lemma turn_always_ends_witness :
  exists r,
    turn Silent [TypeKey "other"; ClickSave]
      (Example.hello_with "secret" Example.empty_store) = Some r.
Proof.
  apply (turn_always_ends (Example.hello_with "secret" Example.empty_store)).
  reflexivity.
Defined.

Lemma ended_requests w srv between :
  requests (ended w srv between) =
  requests w ++ [request_of w (default EmptyString (apiKey_of w))].
Proof.
  destruct (settlement_page_frame w srv between) as (_ & _ & _ & Hq & _).
  unfold ended. generalize dependent (settlement_page w srv between). intros w3 Hq.
  destruct w3. destruct w. run. subst. reflexivity.
Qed.

(** X9. A Turn issues exactly one request when the submission is accepted
    and a credential is found, and none on every other path (ignored
    submission, no credential, credential read that throws). *)
Theorem one_request_per_accepted_turn w srv between r :
  well_formed w = true ->
  turn srv between w = Some r ->
  requests (world_of r) =
  requests w ++
  (if ready w && readable w && configured w
   then [request_of w (default EmptyString (apiKey_of w))] else []).
Proof.
  intros Hwf Hturn. rewrite (turn_total w srv between Hwf) in Hturn.
  injection Hturn as <-. unfold after_turn.
  destruct (ready w); simpl; [|symmetry; apply app_nil_r].
  destruct (readable w); simpl; [|destruct w; simpl; symmetry; apply app_nil_r].
  destruct (configured w); simpl.
  - apply ended_requests.
  - destruct w; simpl; symmetry; apply app_nil_r.
Qed.

Lemma one_request_witness :
  requests (world_of (Ok tt (ended (Example.hello_with "secret" Example.empty_store)
                               Example.hi_there []))) =
  requests (Example.hello_with "secret" Example.empty_store) ++
  (if ready (Example.hello_with "secret" Example.empty_store) &&
      readable (Example.hello_with "secret" Example.empty_store) &&
      configured (Example.hello_with "secret" Example.empty_store)
   then [request_of (Example.hello_with "secret" Example.empty_store)
           (default EmptyString (apiKey_of (Example.hello_with "secret" Example.empty_store)))]
   else []).
Proof.
  apply (one_request_per_accepted_turn
           (Example.hello_with "secret" Example.empty_store) Example.hi_there []);
    reflexivity.
Defined.

(** X10. A Turn never writes the credential: with the key widget left
    alone, the cached credential and the store are the same after the Turn
    as before, on every path. *)
Theorem turn_keeps_credential w srv r :
  well_formed w = true ->
  turn srv [] w = Some r ->
  GEMINI_API_KEY (world_of r) = GEMINI_API_KEY w /\
  localStorage (world_of r) = localStorage w.
Proof.
  intros Hwf Hturn. rewrite (turn_total w srv [] Hwf) in Hturn.
  injection Hturn as <-. unfold after_turn.
  destruct (ready w); simpl; [|split; reflexivity].
  destruct (readable w); simpl; [|destruct w; split; reflexivity].
  destruct (configured w); simpl; [|destruct w; split; reflexivity].
  destruct (settlement_page_frame w srv []) as (_ & _ & _ & _ & _ & Hk & Hs & _).
  unfold ended. unfold at_settlement, key_events in Hk, Hs. simpl in Hk, Hs.
  generalize dependent (settlement_page w srv []). intros w3 Hk Hs.
  destruct w3. destruct w. run. subst. split; reflexivity.
Qed.

Lemma turn_keeps_credential_witness :
  GEMINI_API_KEY (world_of (Ok tt (ended Example.disagreeing Silent []))) =
    GEMINI_API_KEY Example.disagreeing /\
  localStorage (world_of (Ok tt (ended Example.disagreeing Silent []))) =
    localStorage Example.disagreeing.
Proof.
  apply (turn_keeps_credential Example.disagreeing Silent); reflexivity.
Defined.

(** X11. While a request is in flight no second Turn can start: on the
    page in flight, and after any edits of the key field and Save
    activations, a click on Send is ignored, and so is the Enter key (whose
    default action is prevented all the same). *)
Theorem no_submit_while_in_flight w between :
  ready w = true ->
  readable w = true ->
  configured w = true ->
  sendMessage w = Ok (Some (pending_of w)) (in_flight w) /\
  sendMessage (at_settlement w between) = Ok None (at_settlement w between) /\
  onKeypress "Enter" (at_settlement w between) = Ok (true, None) (at_settlement w between).
Proof.
  intros Hrd Hr Hc. split; [apply sendMessage_sent; assumption|].
  assert (Hl : sendButton_disabled (at_settlement w between) = true).
  { destruct (key_events_frame between (in_flight w))
      as (_ & _ & _ & _ & _ & Hb & _).
    unfold at_settlement. rewrite Hb. destruct w. reflexivity. }
  pose proof (sendMessage_locked _ Hl) as E.
  split; [exact E|]. unfold onKeypress. simpl. unfold bind, ret. rewrite E. reflexivity.
Qed.

Lemma no_submit_while_in_flight_witness :
  sendMessage (Example.hello_with "secret" Example.empty_store) =
    Ok (Some (pending_of (Example.hello_with "secret" Example.empty_store)))
       (in_flight (Example.hello_with "secret" Example.empty_store)) /\
  sendMessage (at_settlement (Example.hello_with "secret" Example.empty_store) [ClickSave]) =
    Ok None (at_settlement (Example.hello_with "secret" Example.empty_store) [ClickSave]) /\
  onKeypress "Enter"
    (at_settlement (Example.hello_with "secret" Example.empty_store) [ClickSave]) =
    Ok (true, None)
       (at_settlement (Example.hello_with "secret" Example.empty_store) [ClickSave]).
Proof.
  apply (no_submit_while_in_flight
           (Example.hello_with "secret" Example.empty_store) [ClickSave]); reflexivity.
Defined.

(** X12. After a Turn that issued a request, its timer is gone for good:
    if the timer's identity comes due later, nothing on the page changes. *)
Theorem late_timer_after_request_is_noop w srv between :
  well_formed w = true ->
  ready w = true ->
  readable w = true ->
  configured w = true ->
  exists w',
    turn srv between w = Some (Ok tt w') /\
    fire (next_timer w) w' = Ok tt w'.
Proof.
  intros Hwf Hrd Hr Hc. exists (ended w srv between).
  split; [apply turn_explicit; assumption|].
  unfold ended. generalize (settlement_of srv) (settlement_page w srv between).
  intros s w3. destruct w3. destruct w. unfold fire. run.
  rewrite find_filter_out. reflexivity.
Qed.

Lemma late_timer_witness :
  exists w',
    turn Example.hi_there [] (Example.hello_with "secret" Example.empty_store) =
      Some (Ok tt w') /\
    fire (next_timer (Example.hello_with "secret" Example.empty_store)) w' = Ok tt w'.
Proof.
  apply (late_timer_after_request_is_noop
           (Example.hello_with "secret" Example.empty_store) Example.hi_there []);
    reflexivity.
Defined.

Lemma init_never_throws_frame w :
  userInput_disabled (world_of (init w)) = userInput_disabled w /\
  sendButton_disabled (world_of (init w)) = sendButton_disabled w.
Proof.
  destruct w as [? ? ? ? ? ? ? ? ? ? ? [it dn fl] ? ? ? ? ? ? ?].
  unfold init. run. destruct dn; run; [split; reflexivity|].
  destruct (nonempty (it !! storage_key)); run; split; reflexivity.
Qed.

(** X13. The entry field and the Send button are always enabled or
    disabled together: from a page where they are, a Turn on any path, any
    activity on the key widget and the start-up block all lead to a page
    where they are. *)
Theorem gate_stays_coherent w srv between evs r :
  well_formed w = true ->
  gate_coherent w = true ->
  turn srv between w = Some r ->
  gate_coherent (world_of r) = true /\
  gate_coherent (key_events evs w) = true /\
  gate_coherent (world_of (init w)) = true.
Proof.
  intros Hwf Hg Hturn. split; [|split].
  - rewrite (turn_total w srv between Hwf) in Hturn. injection Hturn as <-.
    unfold after_turn.
    destruct (ready w); simpl; [|exact Hg].
    destruct (readable w); simpl; [|destruct w; reflexivity].
    destruct (configured w); simpl; [|destruct w; reflexivity].
    unfold ended. generalize (settlement_of srv) (settlement_page w srv between).
    intros s w3. destruct w3. reflexivity.
  - destruct (key_events_frame evs w) as (_ & _ & _ & Ha & _ & Hb & _).
    unfold gate_coherent in *. rewrite Ha, Hb. exact Hg.
  - destruct (init_never_throws_frame w) as (Ha & Hb).
    unfold gate_coherent in *. rewrite Ha, Hb. exact Hg.
Qed.

Lemma gate_stays_coherent_witness :
  gate_coherent (world_of (Ok tt (ended (Example.hello_with "secret" Example.empty_store)
                                    Silent [ClickSave]))) = true /\
  gate_coherent (key_events [ClickSave] (Example.hello_with "secret" Example.empty_store)) =
    true /\
  gate_coherent (world_of (init (Example.hello_with "secret" Example.empty_store))) = true.
Proof.
  apply (gate_stays_coherent (Example.hello_with "secret" Example.empty_store)
           Silent [ClickSave] [ClickSave]); reflexivity.
Defined.

Lemma after_turn_readable w srv between :
  readable w = true -> readable (world_of (after_turn w srv between)) = true.
Proof.
  intros Hr. unfold after_turn.
  destruct (ready w); simpl; [|exact Hr]. rewrite Hr. simpl.
  destruct (configured w); simpl; [|destruct w; exact Hr].
  destruct (settlement_page_frame w srv between) as (_ & _ & _ & _ & _ & _ & _ & _ & F).
  specialize (F Hr). unfold ended.
  generalize dependent (settlement_page w srv between). intros w3 F.
  destruct w3. exact F.
Qed.

(** X14. Turns compose. After a Turn on any path where the credential can
    be read, the page is ready for the next one: when the user types a new
    non-blank entry and submits again, the second Turn ends too, the Input
    Gate is open, and the chat shows the earlier messages followed by the
    two exchanges in order, each a user message and one assistant message. *)
Theorem turns_compose w srv1 between1 v srv2 between2 :
  well_formed w = true ->
  ready w = true ->
  readable w = true ->
  Js.is_empty (Js.trim v) = false ->
  exists w1 w2 t1 t2,
    turn srv1 between1 w = Some (Ok tt w1) /\
    turn srv2 between2 (with_userInput_value v w1) = Some (Ok tt w2) /\
    map textContent (chatContainer w2) =
      map textContent (chatContainer w) ++ [message_of w; t1; Js.trim v; t2] /\
    unlocked w2 = true.
Proof.
  intros Hwf Hrd Hr Hv.
  destruct (Properties.turn_completes w srv1 between1 Hwf Hrd Hr)
    as (t1 & w1 & Hturn1 & Hdone1 & _ & Hun1).
  pose proof (Properties.turn_keeps_well_formed w srv1 between1 _ Hwf Hturn1) as Hwf1.
  simpl in Hwf1.
  assert (Hr1 : readable w1 = true).
  { pose proof (turn_total w srv1 between1 Hwf) as E. rewrite Hturn1 in E.
    injection E as E. pose proof (after_turn_readable w srv1 between1 Hr) as F.
    rewrite <- E in F. exact F. }
  set (w1' := with_userInput_value v w1).
  assert (Hwf1' : well_formed w1' = true) by (subst w1'; destruct w1; exact Hwf1).
  assert (Hr1' : readable w1' = true) by (subst w1'; destruct w1; exact Hr1).
  assert (Hrd1' : ready w1' = true).
  { destruct Hdone1 as (_ & _ & _ & Hb & _). subst w1'. destruct w1.
    unfold ready, message_of. simpl in *. rewrite Hb, Hv. reflexivity. }
  destruct (Properties.turn_completes w1' srv2 between2 Hwf1' Hrd1' Hr1')
    as (t2 & w2 & Hturn2 & Hdone2 & _ & Hun2).
  exists w1, w2, t1, t2. split; [exact Hturn1|]. split; [exact Hturn2|].
  split; [|exact Hun2].
  destruct Hdone1 as (Hc1 & _). destruct Hdone2 as (Hc2 & _).
  rewrite Hc2. replace (chatContainer w1') with (chatContainer w1)
    by (subst w1'; destruct w1; reflexivity).
  rewrite Hc1, !map_app, <- app_assoc. f_equal. simpl. f_equal. f_equal. f_equal.
  subst w1'. destruct w1. reflexivity.
Qed.

Lemma turns_compose_witness :
  exists w1 w2 t1 t2,
    turn Example.hi_there [] (Example.hello_with "secret" Example.empty_store) =
      Some (Ok tt w1) /\
    turn Silent [] (with_userInput_value "again" w1) = Some (Ok tt w2) /\
    map textContent (chatContainer w2) =
      map textContent (chatContainer (Example.hello_with "secret" Example.empty_store)) ++
      [message_of (Example.hello_with "secret" Example.empty_store); t1;
       Js.trim "again"; t2] /\
    unlocked w2 = true.
Proof.
  apply (turns_compose (Example.hello_with "secret" Example.empty_store)
           Example.hi_there [] "again" Silent []); reflexivity.
Defined.

(** *** Responses *)

Lemma member_error v k e : member v k = inl e -> e = NullAccess.
Proof. destruct v as [[]|]; simpl; intros H; congruence. Qed.

(** The first handler never lets a failure status through, and what it
    throws is never taken for a time-out. *)
Lemma onResponse_failure_status st b :
  ok (MkResponse st b) = false ->
  exists e, onResponse (MkResponse st b) = inl e /\
            String.eqb (name e) "AbortError" = false.
Proof.
  intros Hok. unfold onResponse. cbn [body status].
  destruct b as [data|]; [|eexists; split; reflexivity].
  rewrite Hok. cbn [negb].
  destruct (apiErr_of data) as [e|apiErr] eqn:E.
  - exists e. split; [reflexivity|].
    unfold apiErr_of in E.
    destruct (truthy data); [|discriminate].
    destruct (member (Some data) "error") as [e'|err] eqn:E1.
    + injection E as <-. apply member_error in E1. subst. reflexivity.
    + destruct err as [er|]; [|discriminate].
      destruct (truthy er); [|discriminate].
      destruct (member (Some er) "message") as [e'|msg] eqn:E2.
      * injection E as <-. apply member_error in E2. subst. reflexivity.
      * destruct (truthyV msg); discriminate.
  - destruct (truthyV apiErr).
    + destruct (toStringV apiErr); cbn [str]; eexists; split; reflexivity.
    + eexists; split; reflexivity.
Qed.

(** X15. With a credential present, an answer with a failure status that
    arrives in time always ends the Turn with the generic failure notice,
    whatever the body is (not JSON, JSON without an error, an error with or
    without a message): an error is logged, and it is never taken for a
    time-out. *)
Theorem http_failure_gives_generic_notice w between t bt st b :
  well_formed w = true ->
  ready w = true ->
  readable w = true ->
  configured w = true ->
  (t + bt < timeout_ms)%N ->
  ok (MkResponse st b) = false ->
  exists w' e,
    turn (Answers t st bt b) between w = Some (Ok tt w') /\
    completed w (failure_message +:+ hint_of (at_settlement w between)) w' /\
    console w' = console (at_settlement w between) ++ [ConsoleError "Error:" e] /\
    name e <> "AbortError".
Proof.
  intros Hwf Hrd Hr Hc Ht Hok.
  destruct (turn_with_credential w (Answers t st bt b) between Hwf Hrd Hr Hc)
    as (s & w' & Hs & Hturn & Hdone & _ & _ & Hlog & _).
  rewrite Properties.race_answered in Hs by exact Ht. injection Hs as <-.
  destruct (onResponse_failure_status st b Hok) as (e & He & Hn).
  exists w', e. split; [exact Hturn|].
  unfold final_text, logged, outcome_of, failure_text in Hdone, Hlog.
  rewrite He in Hdone, Hlog. rewrite Hn in Hdone.
  split; [exact Hdone|]. split; [exact Hlog|].
  intros E. rewrite E in Hn. discriminate.
Qed.

Lemma http_failure_witness :
  exists w' e,
    turn (Answers 100 500 5 None) [] (Example.hello_with "secret" Example.empty_store) =
      Some (Ok tt w') /\
    completed (Example.hello_with "secret" Example.empty_store)
      (failure_message +:+
       hint_of (at_settlement (Example.hello_with "secret" Example.empty_store) [])) w' /\
    console w' =
      console (at_settlement (Example.hello_with "secret" Example.empty_store) []) ++
      [ConsoleError "Error:" e] /\
    name e <> "AbortError".
Proof.
  apply (http_failure_gives_generic_notice
           (Example.hello_with "secret" Example.empty_store) [] 100 5 500 None);
    reflexivity.
Defined.

(** X16. A body that is not JSON is a failure even with a success status:
    the Turn ends with the generic failure notice and the logged error
    names the status. *)
Theorem unparseable_body_is_reported w between t bt st :
  well_formed w = true ->
  ready w = true ->
  readable w = true ->
  configured w = true ->
  (t + bt < timeout_ms)%N ->
  exists w',
    turn (Answers t st bt None) between w = Some (Ok tt w') /\
    completed w (failure_message +:+ hint_of (at_settlement w between)) w' /\
    console w' =
      console (at_settlement w between) ++
      [ConsoleError "Error:"
         (NewError ("Invalid JSON from API (" +:+ Js.of_nat st +:+ ")"))].
Proof.
  intros Hwf Hrd Hr Hc Ht.
  destruct (turn_with_credential w (Answers t st bt None) between Hwf Hrd Hr Hc)
    as (s & w' & Hs & Hturn & Hdone & _ & _ & Hlog & _).
  rewrite Properties.race_answered in Hs by exact Ht. injection Hs as <-.
  exists w'. split; [exact Hturn|]. split; [exact Hdone|exact Hlog].
Qed.

Lemma unparseable_body_witness :
  exists w',
    turn (Answers 100 200 5 None) [] (Example.hello_with "secret" Example.empty_store) =
      Some (Ok tt w') /\
    completed (Example.hello_with "secret" Example.empty_store)
      (failure_message +:+
       hint_of (at_settlement (Example.hello_with "secret" Example.empty_store) [])) w' /\
    console w' =
      console (at_settlement (Example.hello_with "secret" Example.empty_store) []) ++
      [ConsoleError "Error:"
         (NewError ("Invalid JSON from API (" +:+ Js.of_nat 200 +:+ ")"))].
Proof.
  apply (unparseable_body_is_reported
           (Example.hello_with "secret" Example.empty_store) [] 100 5 200);
    reflexivity.
Defined.

(** *** Reply extraction *)

(** X17. Only the first candidate counts: whatever follows it in the
    candidates array, and whatever other properties the body and the
    candidate have, the extraction gives what it gives on a body with that
    candidate alone. *)
Theorem only_first_candidate_counts data cand rest :
  get data "candidates" = Some (JArr (cand :: rest)) ->
  reply_of data = reply_of (JObj [("candidates", JArr [cand])]).
Proof.
  intros H. destruct data; try discriminate. simpl in H.
  unfold reply_of. cbn [truthy member get]. rewrite H. reflexivity.
Qed.

Lemma only_first_candidate_witness :
  reply_of (JObj [("modelVersion", JStr "x");
                  ("candidates", JArr [JObj []; JNull; JStr "ignored"])]) =
  reply_of (JObj [("candidates", JArr [JObj []])]).
Proof.
  apply (only_first_candidate_counts _ (JObj []) [JNull; JStr "ignored"]). reflexivity.
Defined.

(** X18. On the documented response shape, a first candidate whose content
    parts each carry a text string, the script extracts the concatenation
    of the texts in order, trimmed at both ends only. *)
Theorem reply_of_expected_shape (texts : list string) others :
  reply_of
    (JObj [("candidates",
            JArr (JObj [("content",
                         JObj [("parts",
                                JArr (map (fun t => JObj [("text", JStr t)]) texts))])]
                  :: others))]) =
  inr (Js.trim (fold_right String.append EmptyString texts)).
Proof.
  rewrite reply_of_text by apply expected_shape_extractable.
  rewrite reply_text_expected_shape. reflexivity.
Qed.

(** X19. A success response whose fragments are white space only is
    answered with the fixed text: with a credential present and a readable
    first candidate, the Turn ends without a logged error and its assistant
    message is the could-not-generate text. *)
Theorem blank_reply_gets_fixed_message w between t bt st data :
  well_formed w = true ->
  ready w = true ->
  readable w = true ->
  configured w = true ->
  (t + bt < timeout_ms)%N ->
  ok (MkResponse st (Some data)) = true ->
  Reply.extractable data = true ->
  Js.all_space
    (fold_right String.append EmptyString
       (map Reply.fragment (Reply.first_candidate_parts data))) = true ->
  exists w',
    turn (Answers t st bt (Some data)) between w = Some (Ok tt w') /\
    completed w no_reply_message w' /\
    console w' = console (at_settlement w between).
Proof.
  intros Hwf Hrd Hr Hc Ht Hok Hex Hsp.
  destruct (turn_with_credential w (Answers t st bt (Some data)) between Hwf Hrd Hr Hc)
    as (s & w' & Hs & Hturn & Hdone & _ & _ & Hlog & _).
  rewrite Properties.race_answered in Hs by exact Ht. injection Hs as <-.
  exists w'. split; [exact Hturn|].
  unfold final_text, logged, outcome_of, onResponse in Hdone, Hlog.
  cbn [body] in Hdone, Hlog. rewrite Hok in Hdone, Hlog. cbn [negb] in Hdone, Hlog.
  rewrite (reply_of_text data Hex) in Hdone, Hlog.
  unfold Reply.text in Hdone. rewrite (trim_all_space _ Hsp) in Hdone.
  split; [exact Hdone|]. rewrite Hlog. apply app_nil_r.
Qed.

Lemma blank_reply_witness :
  exists w',
    turn (Answers 100 200 5
            (Some (JObj [("candidates",
                          JArr [JObj [("content",
                                       JObj [("parts",
                                              JArr [JObj [("text", JStr "  ")];
                                                    JObj []])])]])])))
      [] (Example.hello_with "secret" Example.empty_store) = Some (Ok tt w') /\
    completed (Example.hello_with "secret" Example.empty_store) no_reply_message w' /\
    console w' =
      console (at_settlement (Example.hello_with "secret" Example.empty_store) []).
Proof.
  apply (blank_reply_gets_fixed_message
           (Example.hello_with "secret" Example.empty_store) [] 100 5 200);
    reflexivity.
Defined.

(** *** The deadline *)

(** X20. An answer that is complete before the deadline is never aborted:
    with a credential present, when headers and body arrive within less
    than 15000 ms, the Turn ends with the controller untouched and the
    timer cleared, whatever the status and the body. *)
Theorem timely_answer_is_never_aborted w between t bt st b :
  well_formed w = true ->
  ready w = true ->
  readable w = true ->
  configured w = true ->
  (t + bt < timeout_ms)%N ->
  exists w',
    turn (Answers t st bt b) between w = Some (Ok tt w') /\
    aborted w' = aborted w /\
    timer_pending (next_timer w) w' = false.
Proof.
  intros Hwf Hrd Hr Hc Ht.
  destruct (turn_with_credential w (Answers t st bt b) between Hwf Hrd Hr Hc)
    as (s & w' & _ & Hturn & _ & _ & Hp & _ & Hab & _).
  rewrite Properties.race_answered in Hab by exact Ht.
  exists w'. split; [exact Hturn|]. split; [exact Hab|exact Hp].
Qed.

Lemma timely_answer_witness :
  exists w',
    turn Example.hi_there [] (Example.hello_with "secret" Example.empty_store) =
      Some (Ok tt w') /\
    aborted w' = aborted (Example.hello_with "secret" Example.empty_store) /\
    timer_pending (next_timer (Example.hello_with "secret" Example.empty_store)) w' = false.
Proof.
  apply (timely_answer_is_never_aborted
           (Example.hello_with "secret" Example.empty_store) [] 100 5 200
           (Some Example.hi_there_body)); reflexivity.
Defined.

Lemma race_late t :
  (timeout_ms < t)%N ->
  forall st bt b,
    race (Some timeout_ms) (Answers t st bt b) = race (Some timeout_ms) Silent /\
    race (Some timeout_ms) (Unreachable t) = race (Some timeout_ms) Silent.
Proof.
  intros Ht st bt b.
  assert (E : (timeout_ms <=? t)%N = true) by (apply N.leb_le; lia).
  unfold race. rewrite E. split; reflexivity.
Qed.

(** X21. An answer that comes after the deadline is discarded: when the
    server answers, or the network fails, later than 15000 ms after the
    request, the Turn is the same as with a server that never answers,
    whatever the late answer holds. *)
Theorem late_answer_is_discarded w between t st bt b :
  well_formed w = true ->
  (timeout_ms < t)%N ->
  turn (Answers t st bt b) between w = turn Silent between w /\
  turn (Unreachable t) between w = turn Silent between w.
Proof.
  intros Hwf Ht. rewrite !turn_total by exact Hwf.
  destruct (race_late t Ht st bt b) as [E1 E2].
  unfold after_turn, ended, settlement_of, settlement_page.
  rewrite E1, E2. split; reflexivity.
Qed.

Lemma late_answer_witness :
  turn (Answers 20000 200 5 (Some Example.hi_there_body)) []
    (Example.hello_with "secret" Example.empty_store) =
    turn Silent [] (Example.hello_with "secret" Example.empty_store) /\
  turn (Unreachable 20000) [] (Example.hello_with "secret" Example.empty_store) =
    turn Silent [] (Example.hello_with "secret" Example.empty_store).
Proof.
  apply (late_answer_is_discarded (Example.hello_with "secret" Example.empty_store) []
           20000 200 5 (Some Example.hi_there_body)); reflexivity.
Defined.

(** *** The entry field *)

(** X22. An accepted submission consumes the entry: whenever the Send
    button is enabled and the entry is not blank, the entry field is empty
    after the Turn, on every path, and the rendered user message is the
    trimmed entry. *)
Theorem accepted_entry_is_consumed w srv between r :
  well_formed w = true ->
  ready w = true ->
  turn srv between w = Some r ->
  userInput_value (world_of r) = EmptyString /\
  In (Appended (user_node w)) (rendered (world_of r)) /\
  textContent (user_node w) = Js.trim (userInput_value w).
Proof.
  intros Hwf Hrd Hturn. rewrite (turn_total w srv between Hwf) in Hturn.
  injection Hturn as <-. unfold after_turn. rewrite Hrd. simpl.
  split; [|split; [|reflexivity]].
  - destruct (readable w); simpl; [|destruct w; reflexivity].
    destruct (configured w); simpl; [|destruct w; reflexivity].
    destruct (settlement_page_frame w srv between) as (_ & _ & _ & _ & Hv & _).
    unfold ended. generalize dependent (settlement_page w srv between). intros w3 Hv.
    destruct w3. destruct w. run. subst. reflexivity.
  - destruct (readable w); simpl;
      [|destruct w; run; apply in_or_app; right; left; reflexivity].
    destruct (configured w); simpl;
      [|destruct w; run; apply in_or_app; right; left; reflexivity].
    destruct (settlement_page_frame w srv between) as (_ & _ & Hrn & _).
    unfold ended. generalize dependent (settlement_page w srv between). intros w3 Hrn.
    destruct w3. destruct w. run. subst.
    apply in_or_app. left. apply in_or_app. right. left. reflexivity.
Qed.

Lemma accepted_entry_witness :
  userInput_value (world_of (Ok tt (asked (Example.hello Example.empty_store)))) =
    EmptyString /\
  In (Appended (user_node (Example.hello Example.empty_store)))
     (rendered (world_of (Ok tt (asked (Example.hello Example.empty_store))))) /\
  textContent (user_node (Example.hello Example.empty_store)) =
    Js.trim (userInput_value (Example.hello Example.empty_store)).
Proof.
  apply (accepted_entry_is_consumed (Example.hello Example.empty_store) Silent []);
    reflexivity.
Defined.

End Coverage.
